(** * CpuCalcNonbondedForceKernel: a shallow embedding of
      platforms/cpu/src/CpuKernels.cpp

    The kernel keeps its parameters in a record; the three operations
    [initialize] (lines 64-130), [execute] (lines 132-188) and
    [copyParametersToContext] (lines 190-229) are functions on that record
    and on the host context.  Only the statements that are compiled are
    embedded: the parts of the file that are commented out do nothing, and
    nothing stands for them here.

    - C++ [double] and [float] are IEEE 754 binary64 and binary32 numbers,
      taken from the [SpecFloat] specification of the standard library,
      with round to nearest even; [RealOpenMM] is [double].
    - [int] is [Z]: particle counts stay far below 2^29, so [4*i+3] does
      not wrap.
    - [vector] is a list indexed from zero and [set<int>] a [gset Z].  An
      index outside a vector has no defined behaviour in C++; the
      embedding returns [Undefined] there.
    - [CpuNeighborList::computeNeighborList] and the static functions of
      [NonbondedForceImpl] are defined in other files and enter as
      parameters. *)

From Stdlib Require Import ZArith List Bool String Lia.
From Stdlib Require Import Floats.SpecFloat.
From stdpp Require Import gmap list.

Local Open Scope Z_scope.

(* ===================================================================== *)
(** ** Floating point numbers *)
(* ===================================================================== *)

Module IEEE.

(** [double]: binary64, 53 bits of precision, exponent bound 1024. *)
Definition double : Type := spec_float.
(** [float]: binary32, 24 bits of precision, exponent bound 128. *)
Definition single : Type := spec_float.

Definition dprec : Z := 53.
Definition demax : Z := 1024.
Definition sprec : Z := 24.
Definition semax : Z := 128.

Definition dadd : double -> double -> double := SFadd dprec demax.
Definition dsub : double -> double -> double := SFsub dprec demax.
Definition dmul : double -> double -> double := SFmul dprec demax.
Definition ddiv : double -> double -> double := SFdiv dprec demax.
Definition dsqrt : double -> double := SFsqrt dprec demax.

(** [x == y] and [x != y] of C++: a NaN differs from everything, the two
    zeros are equal. *)
Definition deq (x y : double) : bool := SFeqb x y.
Definition dne (x y : double) : bool := negb (SFeqb x y).
Definition dlt (x y : double) : bool := SFltb x y.

(** An integer as a double (exact below 2^53). *)
Definition d_of_Z (n : Z) : double := binary_normalize dprec demax n 0 false.

(** The literals [0.0] and [0.5]. *)
Definition dzero : double := S754_zero false.
Definition dhalf : double := binary_normalize dprec demax 1 (-1) false.
Definition done : double := d_of_Z 1.

(** [floor] of math.h: the largest integral value not above [x].  A
    finite [x] is [(-1)^s * m * 2^e]; with [e >= 0] it is integral, else
    the mantissa is shifted right, rounding towards minus infinity. *)
Definition dfloor (x : double) : double :=
  match x with
  | S754_finite s m e =>
      if 0 <=? e then x
      else binary_normalize dprec demax
             (Z.shiftr (cond_Zopp s (Zpos m)) (- e)) 0 s
  | _ => x
  end.

(** The cast [(float) x]: rounding to nearest even in binary32. *)
Definition to_float (x : double) : single :=
  match x with
  | S754_finite s m e => binary_round sprec semax s m e
  | _ => x
  end.

(** The fill value [0] of [posq.resize(4*numParticles, 0)]. *)
Definition fzero : single := S754_zero false.

End IEEE.

Import IEEE.

(* ===================================================================== *)
(** ** Results of C++ code *)
(* ===================================================================== *)

(** A call returns a value, throws an [OpenMMException] carrying its
    message, or has no defined behaviour (an index outside a [vector]). *)
Inductive outcome (A : Type) : Type :=
| Ok (a : A)
| Throw (msg : string)
| Undefined.
Arguments Ok {A} a.
Arguments Throw {A} msg.
Arguments Undefined {A}.

(** Sequencing: the first call that throws or goes wrong ends the run.
    With stdpp's classes, [x ← c; k] runs [c] and then [k]. *)
#[global] Instance outcome_ret : MRet outcome := fun A a => Ok a.
#[global] Instance outcome_bind : MBind outcome := fun A B f c =>
  match c with
  | Ok a => f a
  | Throw msg => Throw msg
  | Undefined => Undefined
  end.

Definition throws {A : Type} (c : outcome A) : Prop := exists msg, c = Throw msg.

(** [v[i]] and [v[i] = x] on a [vector]: defined inside the bounds only. *)
Definition load {A : Type} (v : list A) (i : Z) : outcome A :=
  if 0 <=? i then
    match v !! Z.to_nat i with
    | Some x => Ok x
    | None => Undefined
    end
  else Undefined.

Definition store {A : Type} (v : list A) (i : Z) (x : A) : outcome (list A) :=
  if (0 <=? i) && (i <? Z.of_nat (length v))
  then Ok (<[Z.to_nat i := x]> v)
  else Undefined.

(** [for (int i = start; i < start + n; i++) body(i)] over a state. *)
Fixpoint for_loop {St : Type} (body : Z -> St -> outcome St)
    (n : nat) (i : Z) (s : St) : outcome St :=
  match n with
  | O => Ok s
  | S n' => s' ← body i s; for_loop body n' (i + 1) s'
  end.

(* ===================================================================== *)
(** ** The force configuration and the host context *)
(* ===================================================================== *)

Inductive NonbondedMethod : Type :=
| NoCutoff | CutoffNonPeriodic | CutoffPeriodic | Ewald | PME.

Definition NonbondedMethod_eqb (a b : NonbondedMethod) : bool :=
  match a, b with
  | NoCutoff, NoCutoff | CutoffNonPeriodic, CutoffNonPeriodic
  | CutoffPeriodic, CutoffPeriodic | Ewald, Ewald | PME, PME => true
  | _, _ => false
  end.

(** The methods that use periodic boundary conditions. *)
Definition usesPeriodic (m : NonbondedMethod) : bool :=
  match m with
  | CutoffPeriodic | Ewald | PME => true
  | NoCutoff | CutoffNonPeriodic => false
  end.

(** What [getParticleParameters] and [getExceptionParameters] hand back. *)
Record ParticleInfo : Type := {
  charge : double;
  radius : double;
  depth : double
}.

Record ExceptionInfo : Type := {
  particle1 : Z;
  particle2 : Z;
  chargeProd : double;
  sigma : double;
  epsilon : double
}.

Record NonbondedForce : Type := {
  particles : list ParticleInfo;
  exceptions : list ExceptionInfo;
  getNonbondedMethod : NonbondedMethod;
  getCutoffDistance : double;
  getUseSwitchingFunction : bool;
  getSwitchingDistance : double;
  getReactionFieldDielectric : double;
  getUseDispersionCorrection : bool;
  getEwaldErrorTolerance : double
}.

Definition getNumParticles (force : NonbondedForce) : Z :=
  Z.of_nat (length (particles force)).
Definition getNumExceptions (force : NonbondedForce) : Z :=
  Z.of_nat (length (exceptions force)).

(** [RealVec]: three [RealOpenMM] (double) components, read with [v[j]]. *)
Record RealVec : Type := { vx : double; vy : double; vz : double }.

Definition vec_get (v : RealVec) (j : Z) : double :=
  if j =? 0 then vx v else if j =? 1 then vy v else vz v.

(** The platform data of the context: the buffers the host owns. *)
Record ContextImpl : Type := {
  positions : list RealVec;
  velocities : list RealVec;
  forces : list RealVec;
  periodicBoxSize : RealVec
}.

Definition extractPositions (context : ContextImpl) : list RealVec := positions context.
Definition extractVelocities (context : ContextImpl) : list RealVec := velocities context.
Definition extractForces (context : ContextImpl) : list RealVec := forces context.
Definition extractBoxSize (context : ContextImpl) : RealVec := periodicBoxSize context.

(** [j] is a member of [exclusions[i]]. *)
Definition excluded (excl : list (gset Z)) (i j : Z) : Prop :=
  0 <= i /\ exists s, excl !! Z.to_nat i = Some s /\ j ∈ s.

(** Both particle indices of an exception are indices of particles. *)
Definition exceptionInRange (n : Z) (e : ExceptionInfo) : bool :=
  (0 <=? particle1 e) && (particle1 e <? n) &&
  (0 <=? particle2 e) && (particle2 e <? n).

Definition exceptionsInRange (force : NonbondedForce) : bool :=
  forallb (exceptionInRange (getNumParticles force)) (exceptions force).

(** Exception [i] of the configuration pairs [a] with [b], in this order
    or the other. *)
Definition pairedBy (force : NonbondedForce) (a b : Z) : Prop :=
  exists e, e ∈ exceptions force /\
    ((particle1 e = a /\ particle2 e = b) \/ (particle1 e = b /\ particle2 e = a)).

(* ===================================================================== *)
(** ** The kernel *)
(* ===================================================================== *)

Section Kernel.

(** Classes and functions of OpenMM that CpuKernels.cpp calls and that
    live in other files: the [System], the [CpuNeighborList] with its
    [computeNeighborList] method (the list it builds depends on the list
    object it is called on and on the arguments), and the parameter
    derivations of [NonbondedForceImpl]. *)
Variable System : Type.
Variable CpuNeighborList : Type.
Variable computeNeighborList :
  CpuNeighborList -> Z -> list single -> list (gset Z) ->
  single * single * single -> bool -> double -> CpuNeighborList.
Variable calcEwaldParameters : System -> NonbondedForce -> double * (Z * Z * Z).
Variable calcPMEParameters : System -> NonbondedForce -> double * (Z * Z * Z).

(** The Lennard-Jones tail integral over all particle parameters, the
    numeric part of [NonbondedForceImpl::calcDispersionCorrection]. *)
Variable tailCorrection : System -> NonbondedForce -> double.

(** Modelled from the spec: [NonbondedForceImpl::calcDispersionCorrection]
    is declared in openmm/internal/NonbondedForceImpl.h and defined
    outside this file.  The spec gives the analytic long-range
    Lennard-Jones tail correction as a function of the particle
    parameters, zero if the method is non-periodic. *)
Definition calcDispersionCorrection (system : System) (force : NonbondedForce) : double :=
  if usesPeriodic (getNonbondedMethod force)
  then tailCorrection system force
  else dzero.

(** The data members of [CpuCalcNonbondedForceKernel]. *)
Record CpuCalcNonbondedForceKernel : Type := {
  numParticles : Z;
  num14 : Z;
  posq : list single;
  exclusions : list (gset Z);
  nonbondedMethod : NonbondedMethod;
  nonbondedCutoff : double;
  useSwitchingFunction : bool;
  switchingDistance : double;
  ewaldAlpha : double;
  kmax : Z * Z * Z;
  gridSize : Z * Z * Z;
  rfDielectric : double;
  dispersionCoefficient : double;
  neighborList : CpuNeighborList
}.

(** A kernel object as its constructor leaves it: the two vectors are
    empty, the scalar members hold whatever they hold. *)
Definition constructed (k : CpuCalcNonbondedForceKernel) : Prop :=
  posq k = [] /\ exclusions k = [].

(** *** initialize *)

(** [exclusions[p].insert(q)] *)
Definition insertExclusion (excl : list (gset Z)) (p q : Z) : outcome (list (gset Z)) :=
  s ← load excl p; store excl p ({[q]} ∪ s).

(** [chargeProd != 0.0 || epsilon != 0.0] *)
Definition is14 (e : ExceptionInfo) : bool :=
  dne (chargeProd e) dzero || dne (epsilon e) dzero.

(** The body of the loop over the exceptions; the state is the exclusion
    table and the local vector [nb14s]. *)
Definition exceptionStep (force : NonbondedForce) (i : Z)
    (st : list (gset Z) * list Z) : outcome (list (gset Z) * list Z) :=
  e ← load (exceptions force) i;
  excl1 ← insertExclusion st.1 (particle1 e) (particle2 e);
  excl2 ← insertExclusion excl1 (particle2 e) (particle1 e);
  Ok (excl2, if is14 e then st.2 ++ [i] else st.2).

Definition scanExceptions (force : NonbondedForce) (excl : list (gset Z))
    : outcome (list (gset Z) * list Z) :=
  for_loop (exceptionStep force) (Z.to_nat (getNumExceptions force)) 0 (excl, []).

(** [posq[4*i+3] = (float) charge] *)
Definition chargeStep (force : NonbondedForce) (i : Z) (pq : list single)
    : outcome (list single) :=
  p ← load (particles force) i;
  store pq (4 * i + 3) (to_float (charge p)).

Definition initialize (k0 : CpuCalcNonbondedForceKernel)
    (system : System) (force : NonbondedForce)
    : outcome CpuCalcNonbondedForceKernel :=
  let numParticles' := getNumParticles force in
  let exclusions0 := resize (Z.to_nat numParticles') ∅ (exclusions k0) in
  st ← scanExceptions force exclusions0;
  let num14' := Z.of_nat (length st.2) in
  let posq0 := resize (Z.to_nat (4 * numParticles')) fzero (posq k0) in
  posq' ← for_loop (chargeStep force) (Z.to_nat numParticles') 0 posq0;
  let method := getNonbondedMethod force in
  let noCutoff := NonbondedMethod_eqb method NoCutoff in
  let ewaldPars := calcEwaldParameters system force in
  let pmePars := calcPMEParameters system force in
  Ok {| numParticles := numParticles';
        num14 := num14';
        posq := posq';
        exclusions := st.1;
        nonbondedMethod := method;
        nonbondedCutoff := getCutoffDistance force;
        useSwitchingFunction :=
          if noCutoff then false else getUseSwitchingFunction force;
        switchingDistance :=
          if noCutoff then switchingDistance k0 else getSwitchingDistance force;
        ewaldAlpha :=
          match method with
          | Ewald => ewaldPars.1
          | PME => pmePars.1
          | _ => ewaldAlpha k0
          end;
        kmax := match method with Ewald => ewaldPars.2 | _ => kmax k0 end;
        gridSize := match method with PME => pmePars.2 | _ => gridSize k0 end;
        rfDielectric := getReactionFieldDielectric force;
        dispersionCoefficient :=
          if getUseDispersionCorrection force
          then calcDispersionCorrection system force
          else dzero;
        neighborList := neighborList k0 |}.

(** *** execute *)

(** One coordinate of the periodic branch:
    [base = floor(x/boxSize[j]+0.5)*boxSize[j]; (float) (x-base)]. *)
Definition wrapCoordinate (x L : double) : single :=
  let base := dmul (dfloor (dadd (ddiv x L) dhalf)) L in
  to_float (dsub x base).

Definition wrapStep (posData : list RealVec) (boxSize : RealVec) (i j : Z)
    (pq : list single) : outcome (list single) :=
  p ← load posData i;
  store pq (4 * i + j) (wrapCoordinate (vec_get p j) (vec_get boxSize j)).

Definition periodicStep (posData : list RealVec) (boxSize : RealVec) (i : Z)
    (pq : list single) : outcome (list single) :=
  for_loop (wrapStep posData boxSize i) 3 0 pq.

Definition plainStep (posData : list RealVec) (i : Z) (pq : list single)
    : outcome (list single) :=
  p0 ← load posData i;
  pq0 ← store pq (4 * i) (to_float (vec_get p0 0));
  p1 ← load posData i;
  pq1 ← store pq0 (4 * i + 1) (to_float (vec_get p1 1));
  p2 ← load posData i;
  store pq1 (4 * i + 2) (to_float (vec_get p2 2)).

(** The working copy after an evaluation: only [posq] and the neighbor
    list are assigned. *)
Definition setWorking (k : CpuCalcNonbondedForceKernel)
    (posq' : list single) (nl : CpuNeighborList) : CpuCalcNonbondedForceKernel :=
  {| numParticles := numParticles k;
     num14 := num14 k;
     posq := posq';
     exclusions := exclusions k;
     nonbondedMethod := nonbondedMethod k;
     nonbondedCutoff := nonbondedCutoff k;
     useSwitchingFunction := useSwitchingFunction k;
     switchingDistance := switchingDistance k;
     ewaldAlpha := ewaldAlpha k;
     kmax := kmax k;
     gridSize := gridSize k;
     rfDielectric := rfDielectric k;
     dispersionCoefficient := dispersionCoefficient k;
     neighborList := nl |}.

Definition convertPositions (k : CpuCalcNonbondedForceKernel)
    (posData : list RealVec) (boxSize : RealVec) : outcome (list single) :=
  if NonbondedMethod_eqb (nonbondedMethod k) CutoffPeriodic
  then for_loop (periodicStep posData boxSize) (Z.to_nat (numParticles k)) 0 (posq k)
  else for_loop (plainStep posData) (Z.to_nat (numParticles k)) 0 (posq k).

(** [float floatBoxSize[3] = {(float) boxSize[0], ...}] *)
Definition toFloatBox (boxSize : RealVec) : single * single * single :=
  (to_float (vec_get boxSize 0), to_float (vec_get boxSize 1),
   to_float (vec_get boxSize 2)).

Definition execute (k : CpuCalcNonbondedForceKernel) (context : ContextImpl)
    (includeForces includeEnergy includeDirect includeReciprocal : bool)
    : outcome (double * CpuCalcNonbondedForceKernel * ContextImpl) :=
  let posData := extractPositions context in
  let boxSize := extractBoxSize context in
  let floatBoxSize := toFloatBox boxSize in
  let periodic := NonbondedMethod_eqb (nonbondedMethod k) CutoffPeriodic in
  let ewald := NonbondedMethod_eqb (nonbondedMethod k) Ewald in
  let pme := NonbondedMethod_eqb (nonbondedMethod k) PME in
  posq' ← convertPositions k posData boxSize;
  let nl := computeNeighborList (neighborList k) (numParticles k) posq'
              (exclusions k) floatBoxSize (periodic || ewald || pme)
              (nonbondedCutoff k) in
  Ok (dzero, setWorking k posq' nl, context).

(** *** copyParametersToContext: the body is empty. *)
Definition copyParametersToContext (k : CpuCalcNonbondedForceKernel)
    (context : ContextImpl) (force : NonbondedForce)
    : outcome (CpuCalcNonbondedForceKernel * ContextImpl) :=
  Ok (k, context).

(** The neighbor list [execute] asks for, given the working positions. *)
Definition searched (k : CpuCalcNonbondedForceKernel) (context : ContextImpl) (pq : list single)
    : CpuNeighborList :=
  computeNeighborList (neighborList k) (numParticles k) pq (exclusions k)
    (toFloatBox (periodicBoxSize context))
    (usesPeriodic (nonbondedMethod k)) (nonbondedCutoff k).

(** *** The states of the driver *)

(** The sizes [initialize] sets up and every later call relies on. *)
Definition kernel_wf (k : CpuCalcNonbondedForceKernel) : Prop :=
  0 <= numParticles k /\
  Z.of_nat (length (posq k)) = 4 * numParticles k /\
  Z.of_nat (length (exclusions k)) = numParticles k.

(** Ready: initialized, then any number of evaluations and parameter
    updates. *)
Inductive Ready : CpuCalcNonbondedForceKernel -> Prop :=
| Ready_initialize k0 system force k :
    constructed k0 ->
    initialize k0 system force = Ok k ->
    Ready k
| Ready_execute k context f1 f2 f3 f4 energy k' context' :
    Ready k ->
    execute k context f1 f2 f3 f4 = Ok (energy, k', context') ->
    Ready k'
| Ready_update k context force k' context' :
    Ready k ->
    copyParametersToContext k context force = Ok (k', context') ->
    Ready k'.

(** The context holds a position for every particle of the kernel. *)
Definition hasPositions (k : CpuCalcNonbondedForceKernel) (context : ContextImpl) : Prop :=
  numParticles k <= Z.of_nat (length (positions context)).

End Kernel.

Arguments numParticles {CpuNeighborList} c.
Arguments num14 {CpuNeighborList} c.
Arguments posq {CpuNeighborList} c.
Arguments exclusions {CpuNeighborList} c.
Arguments nonbondedMethod {CpuNeighborList} c.
Arguments nonbondedCutoff {CpuNeighborList} c.
Arguments useSwitchingFunction {CpuNeighborList} c.
Arguments switchingDistance {CpuNeighborList} c.
Arguments ewaldAlpha {CpuNeighborList} c.
Arguments kmax {CpuNeighborList} c.
Arguments gridSize {CpuNeighborList} c.
Arguments rfDielectric {CpuNeighborList} c.
Arguments dispersionCoefficient {CpuNeighborList} c.
Arguments neighborList {CpuNeighborList} c.
Arguments constructed {CpuNeighborList} k.
Arguments initialize {System CpuNeighborList}
  calcEwaldParameters calcPMEParameters tailCorrection k0 system force.
Arguments calcDispersionCorrection {System} tailCorrection system force.
Arguments setWorking {CpuNeighborList} k posq' nl.
Arguments convertPositions {CpuNeighborList} k posData boxSize.
Arguments execute {CpuNeighborList} computeNeighborList k context
  includeForces includeEnergy includeDirect includeReciprocal.
Arguments copyParametersToContext {CpuNeighborList} k context force.
Arguments searched {CpuNeighborList} computeNeighborList k context pq.
Arguments kernel_wf {CpuNeighborList} k.
Arguments hasPositions {CpuNeighborList} k context.
Arguments Ready {System CpuNeighborList}
  computeNeighborList calcEwaldParameters calcPMEParameters tailCorrection k.

(* ===================================================================== *)
(** ** Vocabulary of the statements *)
(* ===================================================================== *)

(** What the loop over the exceptions has done after [m] of them. *)
Definition scanned (force : NonbondedForce) (excl0 : list (gset Z)) (m : Z)
    (st : list (gset Z) * list Z) : Prop :=
  length st.1 = length excl0 /\
  (forall a b, excluded st.1 a b <->
     excluded excl0 a b \/
     exists i e, 0 <= i < m /\ exceptions force !! Z.to_nat i = Some e /\
       ((particle1 e = a /\ particle2 e = b) \/ (particle1 e = b /\ particle2 e = a))) /\
  (forall i, i ∈ st.2 <->
     0 <= i < m /\ exists e, exceptions force !! Z.to_nat i = Some e /\ is14 e = true) /\
  length st.2 = length (List.filter is14 (take (Z.to_nat m) (exceptions force))).

(** The three stores of one particle: component [j] of particle [i] goes
    to [posq[4*i+j]]. *)
Definition writes3 (f : RealVec -> Z -> single) (p : RealVec) (i : Z)
    (pq : list single) : list single :=
  <[Z.to_nat (4 * i + 2) := f p 2]>
    (<[Z.to_nat (4 * i + 1) := f p 1]>
       (<[Z.to_nat (4 * i) := f p 0]> pq)).

Definition plainCoordinate (p : RealVec) (j : Z) : single := to_float (vec_get p j).

Definition wrappedCoordinate (boxSize : RealVec) (p : RealVec) (j : Z) : single :=
  wrapCoordinate (vec_get p j) (vec_get boxSize j).

(** The conversion [execute] applies to component [j] of a position: the
    wrap in the branch guarded by [periodic], the plain cast otherwise. *)
Definition coordinateOf (method : NonbondedMethod) (boxSize : RealVec)
    (p : RealVec) (j : Z) : single :=
  if NonbondedMethod_eqb method CutoffPeriodic
  then wrappedCoordinate boxSize p j
  else plainCoordinate p j.

(** The statements of the error conditions, as boolean tests. *)

(** An edge of the box is smaller than twice the cutoff. *)
Definition boxTooSmall (cutoff : double) (boxSize : RealVec) : bool :=
  let twice := dmul (d_of_Z 2) cutoff in
  dlt (vx boxSize) twice || dlt (vy boxSize) twice || dlt (vz boxSize) twice.

(** The number of exceptions that are scaled 1-4 pairs. *)
Definition count14 (force : NonbondedForce) : Z :=
  Z.of_nat (length (List.filter is14 (exceptions force))).

(** The distance of two positions, in double arithmetic. *)
Definition distance (a b : RealVec) : double :=
  let dx := dsub (vx b) (vx a) in
  let dy := dsub (vy b) (vy a) in
  let dz := dsub (vz b) (vz a) in
  dsqrt (dadd (dadd (dmul dx dx) (dmul dy dy)) (dmul dz dz)).

(** Modelled from the spec: the Coulomb constant.  CpuKernels.cpp does not
    name it; OpenMM declares it as [ONE_4PI_EPS0], 138.935456 kJ nm/(mol
    e^2), in a header outside this file. *)
Definition ONE_4PI_EPS0 : double := ddiv (d_of_Z 138935456) (d_of_Z 1000000).

(** The Coulomb energy of two charges at distance [r]. *)
Definition coulombEnergy (q1 q2 r : double) : double :=
  ddiv (dmul ONE_4PI_EPS0 (dmul q1 q2)) r.

(** The energy a run returned, if it returned. *)
Definition energyOf {K C : Type} (r : outcome (double * K * C)) : option double :=
  match r with
  | Ok (e, _, _) => Some e
  | _ => None
  end.

(* ===================================================================== *)
(** ** Concrete systems *)
(* ===================================================================== *)

Module Scenario.

(** A stand-in for the collaborators: the system carries nothing, the
    neighbor list is the log of the searches it was asked for, the
    derived parameters are constants. *)
Record SearchCall : Type := {
  callParticles : Z;
  callPosq : list single;
  callExclusions : list (gset Z);
  callBox : single * single * single;
  callPeriodic : bool;
  callCutoff : double
}.

Definition SearchLog : Type := list SearchCall.

Definition logSearch (nl : SearchLog) (n : Z) (pq : list single)
    (excl : list (gset Z)) (box : single * single * single)
    (periodic : bool) (cutoff : double) : SearchLog :=
  nl ++ [{| callParticles := n; callPosq := pq; callExclusions := excl;
            callBox := box; callPeriodic := periodic; callCutoff := cutoff |}].

Definition ewaldPars (_ : unit) (_ : NonbondedForce) : double * (Z * Z * Z) :=
  (d_of_Z 3, (5, 5, 5)).
Definition pmePars (_ : unit) (_ : NonbondedForce) : double * (Z * Z * Z) :=
  (d_of_Z 3, (16, 16, 16)).
Definition tail (_ : unit) (_ : NonbondedForce) : double := d_of_Z (-7).

Definition Kernel : Type := CpuCalcNonbondedForceKernel SearchLog.

Definition init (k0 : Kernel) (force : NonbondedForce) : outcome Kernel :=
  initialize ewaldPars pmePars tail k0 tt force.

Definition run (k : Kernel) (context : ContextImpl) (f1 f2 f3 f4 : bool)
    : outcome (double * Kernel * ContextImpl) :=
  execute logSearch k context f1 f2 f3 f4.

(** A kernel fresh from its constructor. *)
Definition fresh : Kernel :=
  {| numParticles := 0; num14 := 0; posq := []; exclusions := [];
     nonbondedMethod := NoCutoff; nonbondedCutoff := dzero;
     useSwitchingFunction := false; switchingDistance := dzero;
     ewaldAlpha := dzero; kmax := (0, 0, 0); gridSize := (0, 0, 0);
     rfDielectric := dzero; dispersionCoefficient := dzero;
     neighborList := [] |}.

(** The kernel [initialize] makes of a fresh one. *)
Definition kernelOf (force : NonbondedForce) : Kernel :=
  match init fresh force with
  | Ok k => k
  | _ => fresh
  end.

Definition ready (k : Kernel) : Prop := Ready logSearch ewaldPars pmePars tail k.

Definition vec (x y z : Z) : RealVec :=
  {| vx := d_of_Z x; vy := d_of_Z y; vz := d_of_Z z |}.

Definition particle (q : Z) : ParticleInfo :=
  {| charge := d_of_Z q; radius := done; depth := dzero |}.

Definition configure (ps : list ParticleInfo) (es : list ExceptionInfo)
    (method : NonbondedMethod) (dispersion : bool) : NonbondedForce :=
  {| particles := ps; exceptions := es; getNonbondedMethod := method;
     getCutoffDistance := done; getUseSwitchingFunction := false;
     getSwitchingDistance := dzero; getReactionFieldDielectric := d_of_Z 78;
     getUseDispersionCorrection := dispersion;
     getEwaldErrorTolerance := dzero |}.

Definition hostContext (ps : list RealVec) (box : RealVec) : ContextImpl :=
  {| positions := ps; velocities := map (fun _ => vec 0 0 0) ps;
     forces := map (fun _ => vec 0 0 0) ps; periodicBoxSize := box |}.

(** Two particles with charges +1 and -1 at distance 1, no cutoff. *)
Definition dipole : NonbondedForce :=
  configure [particle 1; particle (-1)] [] NoCutoff false.
Definition dipoleContext : ContextImpl :=
  hostContext [vec 0 0 0; vec 1 0 0] (vec 2 2 2).

(** The same two particles under a periodic cutoff of 1 in a box of
    edge 1, which is less than twice the cutoff. *)
Definition cramped : NonbondedForce :=
  configure [particle 1; particle (-1)] [] CutoffPeriodic true.
Definition crampedContext : ContextImpl :=
  hostContext [vec 0 0 0; vec 1 0 0] (vec 1 1 1).

(** One particle at x = 3 in a box of edge 2, with Ewald summation. *)
Definition ewaldOne : NonbondedForce := configure [particle 1] [] Ewald false.
Definition ewaldContext : ContextImpl := hostContext [vec 3 0 0] (vec 2 2 2).

(** Three particles, and exceptions: 0-1 fully excluded, 1-2 scaled. *)
Definition excludedPair : ExceptionInfo :=
  {| particle1 := 0; particle2 := 1; chargeProd := dzero; sigma := done;
     epsilon := dzero |}.
Definition scaledPair : ExceptionInfo :=
  {| particle1 := 1; particle2 := 2; chargeProd := dhalf; sigma := done;
     epsilon := dzero |}.
Definition chain : NonbondedForce :=
  configure [particle 1; particle 0; particle (-1)] [excludedPair; scaledPair]
    CutoffPeriodic true.
Definition chainNoCutoff : NonbondedForce :=
  configure [particle 1; particle 0; particle (-1)] [excludedPair; scaledPair]
    NoCutoff true.

(** A particle excepted with itself. *)
Definition selfPair : ExceptionInfo :=
  {| particle1 := 0; particle2 := 0; chargeProd := dzero; sigma := done;
     epsilon := dzero |}.
Definition selfExcepted : NonbondedForce :=
  configure [particle 1] [selfPair] NoCutoff false.

(** The dipole with a third particle added. *)
Definition tripole : NonbondedForce :=
  configure [particle 1; particle (-1); particle 0] [] NoCutoff false.

End Scenario.

(* ===================================================================== *)
(** ** Histories of a kernel *)
(* ===================================================================== *)

Section Evolution.

Context {CpuNeighborList : Type}.
Variable computeNeighborList :
  CpuNeighborList -> Z -> list single -> list (gset Z) ->
  single * single * single -> bool -> double -> CpuNeighborList.

(** [Evolves k k']: [k'] is [k] after any number of calls of [execute]
    and [copyParametersToContext] that returned, on any contexts, flags
    and configurations. *)
Inductive Evolves : CpuCalcNonbondedForceKernel CpuNeighborList ->
                    CpuCalcNonbondedForceKernel CpuNeighborList -> Prop :=
| Evolves_refl k : Evolves k k
| Evolves_execute k k1 context f1 f2 f3 f4 energy k2 context' :
    Evolves k k1 ->
    execute computeNeighborList k1 context f1 f2 f3 f4 = Ok (energy, k2, context') ->
    Evolves k k2
| Evolves_update k k1 context force k2 context' :
    Evolves k k1 ->
    copyParametersToContext k1 context force = Ok (k2, context') ->
    Evolves k k2.

End Evolution.

(** Every exception is a scaled 1-4 pair. *)
Definition allScaled (force : NonbondedForce) : Prop :=
  forall e, e ∈ exceptions force -> is14 e = true.

Module Cases.

Import Scenario.

(** The chain with its third particle outside the box of edge 4. *)
Definition chainContext : ContextImpl :=
  hostContext [vec 0 0 0; vec 1 0 0; vec 5 0 0] (vec 4 4 4).

(** A context that holds one position only. *)
Definition shortContext : ContextImpl := hostContext [vec 0 0 0] (vec 4 4 4).

(** A box without extent along x. *)
Definition flatContext : ContextImpl :=
  hostContext [vec 0 0 0; vec 1 0 0; vec 5 0 0] (vec 0 4 4).

(** The kernel after one evaluation that returned. *)
Definition afterRun (k : Kernel) (context : ContextImpl) : Kernel :=
  match run k context true true true true with
  | Ok (_, k', _) => k'
  | _ => k
  end.

(** The chain under the other methods, with switching requested. *)
Definition switched (method : NonbondedMethod) : NonbondedForce :=
  {| particles := [particle 1; particle 0; particle (-1)];
     exceptions := [excludedPair; scaledPair];
     getNonbondedMethod := method;
     getCutoffDistance := done; getUseSwitchingFunction := true;
     getSwitchingDistance := dhalf; getReactionFieldDielectric := d_of_Z 78;
     getUseDispersionCorrection := false;
     getEwaldErrorTolerance := dzero |}.

(** Three particles without any exception. *)
Definition free : NonbondedForce :=
  configure [particle 1; particle 0; particle (-1)] [] CutoffNonPeriodic false.

End Cases.

(* ===================================================================== *)
(** ** Sanity checks of the floating point layer *)
(* ===================================================================== *)

Example floor_2_5 : dfloor (ddiv (d_of_Z 5) (d_of_Z 2)) = d_of_Z 2.
Proof. vm_compute. reflexivity. Qed.
Example floor_neg_2_5 : dfloor (ddiv (d_of_Z (-5)) (d_of_Z 2)) = d_of_Z (-3).
Proof. vm_compute. reflexivity. Qed.
Example floor_small : dfloor (ddiv (d_of_Z 1) (d_of_Z 3)) = dzero.
Proof. vm_compute. reflexivity. Qed.
Example floor_neg_small : dfloor (ddiv (d_of_Z (-1)) (d_of_Z 3)) = d_of_Z (-1).
Proof. vm_compute. reflexivity. Qed.
Example to_float_third :
  to_float (ddiv (d_of_Z 1) (d_of_Z 3)) = S754_finite false 11184811 (-25).
Proof. vm_compute. reflexivity. Qed.
Example half_is_half : dadd dhalf dhalf = done.
Proof. vm_compute. reflexivity. Qed.

(* ===================================================================== *)
(** ** Vectors and loops *)
(* ===================================================================== *)

Lemma load_Ok {A : Type} (v : list A) (i : Z) (x : A) :
  load v i = Ok x <-> 0 <= i /\ v !! Z.to_nat i = Some x.
Proof.
  unfold load. destruct (Z.leb_spec 0 i) as [Hi|Hi].
  - destruct (v !! Z.to_nat i) as [y|]; split.
    + intros [= ->]. auto.
    + intros [_ [= ->]]. reflexivity.
    + discriminate.
    + intros [_ ?]. discriminate.
  - split; [discriminate | lia].
Qed.

Lemma load_in_range {A : Type} (v : list A) (i : Z) :
  0 <= i < Z.of_nat (length v) -> exists x, load v i = Ok x /\ v !! Z.to_nat i = Some x.
Proof.
  intros Hi. destruct (lookup_lt_is_Some_2 v (Z.to_nat i)) as [x Hx]; [lia|].
  exists x. split; [apply load_Ok|]; auto with lia.
Qed.

Lemma store_in_range {A : Type} (v : list A) (i : Z) (x : A) :
  0 <= i < Z.of_nat (length v) -> store v i x = Ok (<[Z.to_nat i := x]> v).
Proof.
  intros [H0 H1]. unfold store.
  destruct (Z.leb_spec 0 i); [|lia]. destruct (Z.ltb_spec i (Z.of_nat (length v))); [|lia].
  reflexivity.
Qed.

Lemma store_Ok {A : Type} (v v' : list A) (i : Z) (x : A) :
  store v i x = Ok v' -> 0 <= i < Z.of_nat (length v) /\ v' = <[Z.to_nat i := x]> v.
Proof.
  unfold store.
  destruct (Z.leb_spec 0 i); destruct (Z.ltb_spec i (Z.of_nat (length v)));
    simpl; try discriminate.
  intros [= <-]. auto with lia.
Qed.

(** The loop rule: an invariant that every iteration re-establishes holds
    when the loop ends, and the loop does end with a value. *)
Lemma for_loop_inv {St : Type} (body : Z -> St -> outcome St) (P : Z -> St -> Prop) :
  forall (n : nat) (i : Z) (s : St),
    P i s ->
    (forall j t, i <= j < i + Z.of_nat n -> P j t ->
                 exists t', body j t = Ok t' /\ P (j + 1) t') ->
    exists s', for_loop body n i s = Ok s' /\ P (i + Z.of_nat n) s'.
Proof.
  induction n as [|n IH]; intros i s HP Hstep.
  - exists s. simpl. rewrite Z.add_0_r. auto.
  - destruct (Hstep i s) as (t & Hb & Ht); [lia | assumption |].
    destruct (IH (i + 1) t Ht) as (s' & Hl & Hs').
    + intros j u Hj Hu. apply Hstep; [lia | assumption].
    + exists s'. simpl. rewrite Hb. simpl. split; [exact Hl|].
      replace (i + Z.of_nat (S n)) with (i + 1 + Z.of_nat n) by lia. exact Hs'.
Qed.

(* ===================================================================== *)
(** ** The exclusion table built by initialize *)
(* ===================================================================== *)

Lemma exceptionInRange_true (n : Z) (e : ExceptionInfo) :
  exceptionInRange n e = true ->
  0 <= particle1 e < n /\ 0 <= particle2 e < n.
Proof. unfold exceptionInRange. rewrite !andb_true_iff. lia. Qed.

Lemma insertExclusion_spec (excl : list (gset Z)) (p q : Z) :
  0 <= p < Z.of_nat (length excl) ->
  exists excl',
    insertExclusion excl p q = Ok excl' /\
    length excl' = length excl /\
    forall a b, excluded excl' a b <-> excluded excl a b \/ (a = p /\ b = q).
Proof.
  intros Hp. destruct (load_in_range excl p Hp) as (s & Hload & Hs).
  exists (<[Z.to_nat p := {[q]} ∪ s]> excl).
  unfold insertExclusion. rewrite Hload. simpl.
  rewrite store_in_range by assumption.
  split; [reflexivity|]. split; [apply length_insert|].
  intros a b. unfold excluded. split.
  - intros (Ha & t & Ht & Hb).
    destruct (decide (a = p)) as [->|Hne].
    + rewrite list_lookup_insert_eq in Ht by lia. injection Ht as <-.
      apply elem_of_union in Hb as [Hb|Hb].
      * apply elem_of_singleton in Hb. right. auto.
      * left. eauto.
    + rewrite list_lookup_insert_ne in Ht by lia. left. eauto.
  - intros [(Ha & t & Ht & Hb) | [-> ->]].
    + split; [assumption|].
      destruct (decide (a = p)) as [->|Hne].
      * exists ({[q]} ∪ s). rewrite list_lookup_insert_eq by lia.
        split; [reflexivity|]. rewrite Hs in Ht. injection Ht as <-.
        apply elem_of_union. right. exact Hb.
      * exists t. rewrite list_lookup_insert_ne by lia. auto.
    + split; [lia|]. exists ({[q]} ∪ s). rewrite list_lookup_insert_eq by lia.
      split; [reflexivity|]. apply elem_of_union. left.
      apply elem_of_singleton. reflexivity.
Qed.

(** The exclusion set does not shrink, and no set is dropped. *)
Lemma insertExclusion_length (excl excl' : list (gset Z)) (p q : Z) :
  insertExclusion excl p q = Ok excl' -> length excl' = length excl.
Proof.
  unfold insertExclusion. destruct (load excl p) as [s| |]; simpl; try discriminate.
  intros H. apply store_Ok in H as [_ ->]. apply length_insert.
Qed.

Lemma scanned_start (force : NonbondedForce) (excl0 : list (gset Z)) :
  scanned force excl0 0 (excl0, []).
Proof.
  unfold scanned. simpl. split; [reflexivity|]. split; [|split; [|reflexivity]].
  - intros a b. split; [auto|].
    intros [H | (i & e & Hi & _)]; [assumption | lia].
  - intros i. split.
    + intros H. inversion H.
    + intros [H _]. lia.
Qed.

Lemma scanned_step (force : NonbondedForce) (excl0 : list (gset Z)) (m : Z)
    (st : list (gset Z) * list Z) :
  exceptionsInRange force = true ->
  Z.of_nat (length excl0) = getNumParticles force ->
  0 <= m < getNumExceptions force ->
  scanned force excl0 m st ->
  exists st', exceptionStep force m st = Ok st' /\ scanned force excl0 (m + 1) st'.
Proof.
  intros Hrange Hlen Hm (Hl & Hex & Hnb & Hcount).
  unfold getNumExceptions in Hm.
  destruct (load_in_range (exceptions force) m Hm) as (e & Hload & He).
  assert (Hin : exceptionInRange (getNumParticles force) e = true).
  { unfold exceptionsInRange in Hrange. rewrite forallb_forall in Hrange.
    apply Hrange. apply list_elem_of_In. eapply list_elem_of_lookup_2. exact He. }
  apply exceptionInRange_true in Hin as [H1 H2].
  destruct (insertExclusion_spec st.1 (particle1 e) (particle2 e)) as (x1 & E1 & L1 & S1);
    [lia|].
  destruct (insertExclusion_spec x1 (particle2 e) (particle1 e)) as (x2 & E2 & L2 & S2);
    [lia|].
  exists (x2, if is14 e then st.2 ++ [m] else st.2).
  unfold exceptionStep. rewrite Hload. simpl. rewrite E1. simpl. rewrite E2. simpl.
  split; [reflexivity|].
  unfold scanned. simpl. split; [congruence|]. split; [|split].
  - intros a b. rewrite S2, S1, Hex. split.
    + intros [[[H | (i & e' & Hi & He' & Hp)] | [-> ->]] | [-> ->]].
      * left. assumption.
      * right. exists i, e'. split; [lia|]. auto.
      * right. exists m, e. split; [lia|]. auto.
      * right. exists m, e. split; [lia|]. auto.
    + intros [H | (i & e' & Hi & He' & Hp)]; [auto|].
      destruct (decide (i = m)) as [->|Hne].
      * rewrite He in He'. injection He' as <-.
        destruct Hp as [[<- <-] | [<- <-]]; auto.
      * left. left. right. exists i, e'. split; [lia|]. auto.
  - intros i. destruct (is14 e) eqn:H14.
    + rewrite elem_of_app, list_elem_of_singleton, Hnb. split.
      * intros [[Hi Hx] | ->]; [split; [lia | assumption]|].
        split; [lia|]. eauto.
      * intros [Hi (e' & He' & H')].
        destruct (decide (i = m)) as [->|Hne]; [auto|].
        left. split; [lia|]. eauto.
    + rewrite Hnb. split.
      * intros [Hi Hx]. split; [lia | assumption].
      * intros [Hi (e' & He' & H')]. split; [|eauto].
        destruct (decide (i = m)) as [->|Hne]; [|lia].
        rewrite He in He'. injection He' as <-. congruence.
  - replace (Z.to_nat (m + 1)) with (S (Z.to_nat m)) by lia.
    rewrite (take_S_r _ _ _ He), List.filter_app. simpl.
    destruct (is14 e); rewrite !length_app; simpl; lia.
Qed.

Lemma scanExceptions_spec (force : NonbondedForce) (excl0 : list (gset Z)) :
  exceptionsInRange force = true ->
  Z.of_nat (length excl0) = getNumParticles force ->
  exists st, scanExceptions force excl0 = Ok st /\
             scanned force excl0 (getNumExceptions force) st.
Proof.
  intros Hrange Hlen. unfold scanExceptions.
  destruct (for_loop_inv (exceptionStep force) (scanned force excl0)
              (Z.to_nat (getNumExceptions force)) 0 (excl0, []))
    as (st & Hrun & Hst).
  - apply scanned_start.
  - intros j t Hj Ht. apply scanned_step; auto.
    unfold getNumExceptions in *. lia.
  - exists st. split; [exact Hrun|].
    unfold getNumExceptions in *. rewrite Nat2Z.id in Hst. exact Hst.
Qed.

Lemma for_loop_preserves {St : Type} (body : Z -> St -> outcome St) (P : St -> Prop) :
  (forall j t t', body j t = Ok t' -> P t -> P t') ->
  forall (n : nat) (i : Z) (s s' : St),
    for_loop body n i s = Ok s' -> P s -> P s'.
Proof.
  intros Hbody. induction n as [|n IH]; intros i s s' Hrun Hs; simpl in Hrun.
  - injection Hrun as <-. exact Hs.
  - destruct (body i s) as [t| |] eqn:Hb; simpl in Hrun; try discriminate.
    eapply IH; [exact Hrun|]. eapply Hbody; eauto.
Qed.

Lemma exceptionStep_length (force : NonbondedForce) (i : Z)
    (st st' : list (gset Z) * list Z) :
  exceptionStep force i st = Ok st' -> length st'.1 = length st.1.
Proof.
  unfold exceptionStep.
  destruct (load (exceptions force) i) as [e| |]; simpl; try discriminate.
  destruct (insertExclusion st.1 (particle1 e) (particle2 e)) as [x1| |] eqn:E1;
    simpl; try discriminate.
  destruct (insertExclusion x1 (particle2 e) (particle1 e)) as [x2| |] eqn:E2;
    simpl; try discriminate.
  intros [= <-]. simpl.
  apply insertExclusion_length in E1, E2. congruence.
Qed.

Lemma chargeStep_length (force : NonbondedForce) (i : Z) (pq pq' : list single) :
  chargeStep force i pq = Ok pq' -> length pq' = length pq.
Proof.
  unfold chargeStep. destruct (load (particles force) i) as [p| |]; simpl; try discriminate.
  intros H. apply store_Ok in H as [_ ->]. apply length_insert.
Qed.

(** The loop over the particles writes every charge, rounded to a float,
    into the fourth component of the particle's slot. *)
Lemma chargeLoop_spec (force : NonbondedForce) (pq0 : list single) :
  Z.of_nat (length pq0) = 4 * getNumParticles force ->
  exists pq,
    for_loop (chargeStep force) (Z.to_nat (getNumParticles force)) 0 pq0 = Ok pq /\
    length pq = length pq0 /\
    forall i p, 0 <= i -> particles force !! Z.to_nat i = Some p ->
                pq !! Z.to_nat (4 * i + 3) = Some (to_float (charge p)).
Proof.
  intros Hlen. unfold getNumParticles in *.
  destruct (for_loop_inv (chargeStep force)
              (fun m pq => length pq = length pq0 /\
                 forall i p, 0 <= i < m -> particles force !! Z.to_nat i = Some p ->
                   pq !! Z.to_nat (4 * i + 3) = Some (to_float (charge p)))
              (Z.to_nat (Z.of_nat (length (particles force)))) 0 pq0)
    as (pq & Hrun & Hl & Hq).
  - split; [reflexivity|]. intros i p Hi. lia.
  - intros j t Hj [Hl Hq].
    destruct (load_in_range (particles force) j) as (p & Hload & Hp); [lia|].
    exists (<[Z.to_nat (4 * j + 3) := to_float (charge p)]> t).
    unfold chargeStep. rewrite Hload. simpl.
    rewrite store_in_range by lia.
    split; [reflexivity|]. split; [rewrite length_insert; exact Hl|].
    intros i p' Hi Hp'. destruct (decide (i = j)) as [->|Hne].
    + rewrite Hp in Hp'. injection Hp' as <-.
      apply list_lookup_insert_eq. lia.
    + rewrite list_lookup_insert_ne by lia. apply Hq; [lia | assumption].
  - exists pq. split; [exact Hrun|]. split; [exact Hl|].
    intros i p Hi Hp. apply Hq; [|assumption].
    apply lookup_lt_Some in Hp. lia.
Qed.

Section InitializeFacts.

Context {System CpuNeighborList : Type}.
Variable computeNeighborList :
  CpuNeighborList -> Z -> list single -> list (gset Z) ->
  single * single * single -> bool -> double -> CpuNeighborList.
Variable calcEwaldParameters : System -> NonbondedForce -> double * (Z * Z * Z).
Variable calcPMEParameters : System -> NonbondedForce -> double * (Z * Z * Z).
Variable tailCorrection : System -> NonbondedForce -> double.

Abbreviation Kernel := (CpuCalcNonbondedForceKernel CpuNeighborList).
Abbreviation init := (initialize calcEwaldParameters calcPMEParameters tailCorrection).

(** Whenever [initialize] returns, the sizes are right. *)
Lemma initialize_wf (k0 k : Kernel) (system : System) (force : NonbondedForce) :
  init k0 system force = Ok k -> kernel_wf k.
Proof.
  unfold initialize.
  destruct (scanExceptions force _) as [st| |] eqn:Hscan; simpl; try discriminate.
  destruct (for_loop (chargeStep force) _ 0 _) as [pq| |] eqn:Hq; simpl; try discriminate.
  intros [= <-]. unfold kernel_wf. simpl.
  split; [unfold getNumParticles; lia|]. split.
  - eapply (for_loop_preserves _ (fun t => Z.of_nat (length t) = 4 * getNumParticles force))
      in Hq; [exact Hq| |].
    + intros j t t' Hb Ht. apply chargeStep_length in Hb. congruence.
    + rewrite length_resize. unfold getNumParticles. lia.
  - unfold scanExceptions in Hscan.
    eapply (for_loop_preserves _
              (fun t : list (gset Z) * list Z =>
                 Z.of_nat (length t.1) = getNumParticles force)) in Hscan;
      [exact Hscan| |].
    + intros j t t' Hb Ht. apply exceptionStep_length in Hb. congruence.
    + simpl. rewrite length_resize. unfold getNumParticles. lia.
Qed.

(** With every exception naming particles of the configuration,
    [initialize] returns, and this is what it stores. *)
Lemma initialize_spec (k0 : Kernel) (system : System) (force : NonbondedForce) :
  exceptionsInRange force = true ->
  let excl0 := resize (Z.to_nat (getNumParticles force)) ∅ (exclusions k0) in
  exists k st,
    init k0 system force = Ok k /\
    scanExceptions force excl0 = Ok st /\
    scanned force excl0 (getNumExceptions force) st /\
    exclusions k = st.1 /\
    num14 k = Z.of_nat (length st.2) /\
    numParticles k = getNumParticles force /\
    nonbondedMethod k = getNonbondedMethod force /\
    nonbondedCutoff k = getCutoffDistance force /\
    dispersionCoefficient k =
      (if getUseDispersionCorrection force
       then calcDispersionCorrection tailCorrection system force else dzero).
Proof.
  intros Hrange excl0.
  destruct (scanExceptions_spec force excl0 Hrange) as (st & Hscan & Hst).
  { unfold excl0. rewrite length_resize. unfold getNumParticles. lia. }
  destruct (chargeLoop_spec force
              (resize (Z.to_nat (4 * getNumParticles force)) fzero (posq k0)))
    as (pq & Hq & _).
  { rewrite length_resize. unfold getNumParticles. lia. }
  eexists. exists st. unfold initialize. fold excl0.
  rewrite Hscan. simpl. rewrite Hq. simpl.
  split; [reflexivity|]. simpl. auto 10.
Qed.

End InitializeFacts.

(* ===================================================================== *)
(** ** The working positions built by execute *)
(* ===================================================================== *)

Lemma plainStep_writes (posData : list RealVec) (i : Z) (p : RealVec) (pq : list single) :
  0 <= i -> posData !! Z.to_nat i = Some p ->
  4 * i + 3 <= Z.of_nat (length pq) ->
  plainStep posData i pq = Ok (writes3 plainCoordinate p i pq).
Proof.
  intros Hi Hp Hlen. unfold plainStep, writes3, plainCoordinate.
  assert (Hload : load posData i = Ok p) by (apply load_Ok; auto).
  rewrite Hload. simpl.
  rewrite store_in_range by lia. simpl.
  rewrite store_in_range by (rewrite length_insert; lia). simpl.
  rewrite store_in_range by (rewrite !length_insert; lia).
  reflexivity.
Qed.

Lemma periodicStep_writes (posData : list RealVec) (boxSize : RealVec) (i : Z)
    (p : RealVec) (pq : list single) :
  0 <= i -> posData !! Z.to_nat i = Some p ->
  4 * i + 3 <= Z.of_nat (length pq) ->
  periodicStep posData boxSize i pq = Ok (writes3 (wrappedCoordinate boxSize) p i pq).
Proof.
  intros Hi Hp Hlen. unfold periodicStep, writes3, wrappedCoordinate, wrapStep.
  assert (Hload : load posData i = Ok p) by (apply load_Ok; auto).
  cbn [for_loop]. rewrite Hload. simpl mbind.
  replace (4 * i + 0) with (4 * i) by lia.
  replace (4 * i + (0 + 1)) with (4 * i + 1) by lia.
  replace (4 * i + (0 + 1 + 1)) with (4 * i + 2) by lia.
  change (0 + 1 + 1) with 2. change (0 + 1) with 1.
  rewrite store_in_range by lia. simpl mbind.
  rewrite store_in_range by (rewrite length_insert; lia). simpl mbind.
  rewrite store_in_range by (rewrite !length_insert; lia).
  reflexivity.
Qed.

Lemma writes3_length f p i pq : length (writes3 f p i pq) = length pq.
Proof. unfold writes3. rewrite !length_insert. reflexivity. Qed.

Lemma writes3_same f p i pq (j : Z) :
  0 <= i -> 4 * i + 3 <= Z.of_nat (length pq) -> 0 <= j < 3 ->
  writes3 f p i pq !! Z.to_nat (4 * i + j) = Some (f p j).
Proof.
  intros Hi Hlen Hj. unfold writes3.
  assert (Hcases : j = 0 \/ j = 1 \/ j = 2) by lia.
  destruct Hcases as [-> | [-> | ->]].
  - rewrite !list_lookup_insert_ne by lia.
    replace (4 * i + 0) with (4 * i) by lia.
    apply list_lookup_insert_eq. lia.
  - rewrite list_lookup_insert_ne by lia.
    apply list_lookup_insert_eq. rewrite length_insert. lia.
  - apply list_lookup_insert_eq. rewrite !length_insert. lia.
Qed.

Lemma writes3_other f p i pq (n : nat) :
  0 <= i ->
  n <> Z.to_nat (4 * i) -> n <> Z.to_nat (4 * i + 1) -> n <> Z.to_nat (4 * i + 2) ->
  writes3 f p i pq !! n = pq !! n.
Proof.
  intros Hi H0 H1 H2. unfold writes3.
  rewrite !list_lookup_insert_ne by auto. reflexivity.
Qed.

(** A loop whose body stores the three coordinates of particle [i] fills
    the position components of every slot and leaves the charges alone. *)
Lemma coordinateLoop_spec (body : Z -> list single -> outcome (list single))
    (f : RealVec -> Z -> single) (posData : list RealVec) (pq0 : list single) (n : Z) :
  0 <= n <= Z.of_nat (length posData) ->
  Z.of_nat (length pq0) = 4 * n ->
  (forall i p t, 0 <= i < n -> posData !! Z.to_nat i = Some p ->
                 length t = length pq0 -> body i t = Ok (writes3 f p i t)) ->
  exists pq,
    for_loop body (Z.to_nat n) 0 pq0 = Ok pq /\
    length pq = length pq0 /\
    (forall i p j, 0 <= i < n -> posData !! Z.to_nat i = Some p -> 0 <= j < 3 ->
                   pq !! Z.to_nat (4 * i + j) = Some (f p j)) /\
    (forall i, 0 <= i -> pq !! Z.to_nat (4 * i + 3) = pq0 !! Z.to_nat (4 * i + 3)).
Proof.
  intros Hn Hlen Hbody.
  destruct (for_loop_inv body
              (fun m t => length t = length pq0 /\
                 (forall i p j, 0 <= i < m -> posData !! Z.to_nat i = Some p ->
                    0 <= j < 3 -> t !! Z.to_nat (4 * i + j) = Some (f p j)) /\
                 (forall i, 0 <= i ->
                    t !! Z.to_nat (4 * i + 3) = pq0 !! Z.to_nat (4 * i + 3)))
              (Z.to_nat n) 0 pq0) as (pq & Hrun & Hl & Hc & Hq).
  - split; [reflexivity|]. split; [intros; lia | reflexivity].
  - intros m t Hm (Hl & Hc & Hq).
    destruct (lookup_lt_is_Some_2 posData (Z.to_nat m)) as [p Hp]; [lia|].
    exists (writes3 f p m t). split; [apply Hbody; auto; lia|].
    split; [rewrite writes3_length; exact Hl|]. split.
    + intros i p' j Hi Hp' Hj. destruct (decide (i = m)) as [->|Hne].
      * rewrite Hp in Hp'. injection Hp' as <-.
        apply writes3_same; lia.
      * rewrite writes3_other by lia. apply Hc; auto. lia.
    + intros i Hi. rewrite writes3_other by lia. apply Hq. exact Hi.
  - exists pq. split; [exact Hrun|]. split; [exact Hl|].
    split; [|exact Hq]. intros i p j Hi. apply Hc. lia.
Qed.

Lemma plainStep_length posData i pq pq' :
  plainStep posData i pq = Ok pq' -> length pq' = length pq.
Proof.
  unfold plainStep. destruct (load posData i) as [p| |]; simpl; try discriminate.
  destruct (store pq (4 * i) _) as [q0| |] eqn:E0; simpl; try discriminate.
  destruct (store q0 (4 * i + 1) _) as [q1| |] eqn:E1; simpl; try discriminate.
  intros E2. apply store_Ok in E0 as [_ ->], E1 as [_ ->], E2 as [_ ->].
  rewrite !length_insert. reflexivity.
Qed.

Lemma wrapStep_length posData boxSize i j pq pq' :
  wrapStep posData boxSize i j pq = Ok pq' -> length pq' = length pq.
Proof.
  unfold wrapStep. destruct (load posData i) as [p| |]; simpl; try discriminate.
  intros E. apply store_Ok in E as [_ ->]. apply length_insert.
Qed.

Lemma periodicStep_length posData boxSize i pq pq' :
  periodicStep posData boxSize i pq = Ok pq' -> length pq' = length pq.
Proof.
  unfold periodicStep. intros H.
  eapply (for_loop_preserves _ (fun t => length t = length pq)) in H; [exact H| |reflexivity].
  intros j t t' Hb Ht. apply wrapStep_length in Hb. congruence.
Qed.

Lemma periodic_flag (m : NonbondedMethod) :
  NonbondedMethod_eqb m CutoffPeriodic || NonbondedMethod_eqb m Ewald
    || NonbondedMethod_eqb m PME = usesPeriodic m.
Proof. destruct m; reflexivity. Qed.

Section ExecuteFacts.

Context {CpuNeighborList : Type}.
Variable computeNeighborList :
  CpuNeighborList -> Z -> list single -> list (gset Z) ->
  single * single * single -> bool -> double -> CpuNeighborList.

Abbreviation Kernel := (CpuCalcNonbondedForceKernel CpuNeighborList).

Lemma convertPositions_spec (k : Kernel) (context : ContextImpl) :
  kernel_wf k -> hasPositions k context ->
  exists pq,
    convertPositions k (positions context) (periodicBoxSize context) = Ok pq /\
    length pq = length (posq k) /\
    (forall i p j, 0 <= i < numParticles k ->
       positions context !! Z.to_nat i = Some p -> 0 <= j < 3 ->
       pq !! Z.to_nat (4 * i + j) =
         Some (coordinateOf (nonbondedMethod k) (periodicBoxSize context) p j)) /\
    (forall i, 0 <= i -> pq !! Z.to_nat (4 * i + 3) = posq k !! Z.to_nat (4 * i + 3)).
Proof.
  intros (Hn & Hq & _) Hpos. unfold hasPositions in Hpos.
  unfold convertPositions, coordinateOf.
  destruct (NonbondedMethod_eqb (nonbondedMethod k) CutoffPeriodic).
  - apply coordinateLoop_spec with (posData := positions context); [lia | exact Hq |].
    intros i p t Hi Hp Ht. apply periodicStep_writes; [lia | exact Hp | lia].
  - apply coordinateLoop_spec with (posData := positions context); [lia | exact Hq |].
    intros i p t Hi Hp Ht. apply plainStep_writes; [lia | exact Hp | lia].
Qed.

Lemma convertPositions_length (k : Kernel) posData boxSize pq :
  convertPositions k posData boxSize = Ok pq -> length pq = length (posq k).
Proof.
  unfold convertPositions.
  destruct (NonbondedMethod_eqb (nonbondedMethod k) CutoffPeriodic); intros H.
  - eapply (for_loop_preserves _ (fun t => length t = length (posq k))) in H;
      [exact H| |reflexivity].
    intros j t t' Hb Ht. apply periodicStep_length in Hb. congruence.
  - eapply (for_loop_preserves _ (fun t => length t = length (posq k))) in H;
      [exact H| |reflexivity].
    intros j t t' Hb Ht. apply plainStep_length in Hb. congruence.
Qed.

(** Whatever [execute] returns is zero, the kernel with a new working
    copy, and the context it was given. *)
Lemma execute_inv (k : Kernel) (context : ContextImpl) (f1 f2 f3 f4 : bool) r :
  execute computeNeighborList k context f1 f2 f3 f4 = Ok r ->
  exists pq,
    convertPositions k (positions context) (periodicBoxSize context) = Ok pq /\
    r = (dzero, setWorking k pq (searched computeNeighborList k context pq), context).
Proof.
  unfold execute, extractPositions, extractBoxSize.
  destruct (convertPositions k _ _) as [pq| |]; simpl; try discriminate.
  intros [= <-]. exists pq. split; [reflexivity|].
  unfold searched. rewrite periodic_flag. reflexivity.
Qed.

(** With a position for every particle, [execute] returns. *)
Lemma execute_spec (k : Kernel) (context : ContextImpl) (f1 f2 f3 f4 : bool) :
  kernel_wf k -> hasPositions k context ->
  exists pq,
    convertPositions k (positions context) (periodicBoxSize context) = Ok pq /\
    execute computeNeighborList k context f1 f2 f3 f4 =
      Ok (dzero, setWorking k pq (searched computeNeighborList k context pq), context).
Proof.
  intros Hwf Hpos.
  destruct (convertPositions_spec k context Hwf Hpos) as (pq & Hc & _).
  exists pq. split; [exact Hc|].
  unfold execute, extractPositions, extractBoxSize. rewrite Hc. simpl.
  unfold searched. rewrite periodic_flag. reflexivity.
Qed.

Lemma execute_wf (k k' : Kernel) (context context' : ContextImpl)
    (f1 f2 f3 f4 : bool) (energy : double) :
  kernel_wf k ->
  execute computeNeighborList k context f1 f2 f3 f4 = Ok (energy, k', context') ->
  kernel_wf k'.
Proof.
  intros (Hn & Hq & He) H. apply execute_inv in H as (pq & Hc & [= -> -> ->]).
  apply convertPositions_length in Hc.
  unfold kernel_wf. simpl. rewrite Hc. auto.
Qed.

End ExecuteFacts.

Section ReadyFacts.

Context {System CpuNeighborList : Type}.
Variable computeNeighborList :
  CpuNeighborList -> Z -> list single -> list (gset Z) ->
  single * single * single -> bool -> double -> CpuNeighborList.
Variable calcEwaldParameters : System -> NonbondedForce -> double * (Z * Z * Z).
Variable calcPMEParameters : System -> NonbondedForce -> double * (Z * Z * Z).
Variable tailCorrection : System -> NonbondedForce -> double.

(** The sizes are an invariant of the Ready state. *)
Lemma Ready_wf (k : CpuCalcNonbondedForceKernel CpuNeighborList) :
  Ready computeNeighborList calcEwaldParameters calcPMEParameters tailCorrection k ->
  kernel_wf k.
Proof.
  induction 1 as [k0 system force k _ Hinit
                 | k context f1 f2 f3 f4 energy k' context' _ IH Hexec
                 | k context force k' context' _ IH Hupd].
  - eapply initialize_wf. exact Hinit.
  - eapply execute_wf; [exact IH | exact Hexec].
  - unfold copyParametersToContext in Hupd. injection Hupd as <- <-. exact IH.
Qed.

End ReadyFacts.

(* ===================================================================== *)
(** ** From the loop invariant to the configured exceptions *)
(* ===================================================================== *)

Lemma excluded_fresh (n : nat) (a b : Z) : ~ excluded (resize n ∅ []) a b.
Proof.
  intros (Ha & s & Hs & Hb). rewrite resize_nil in Hs.
  apply lookup_replicate in Hs as [-> _]. exact (not_elem_of_empty b Hb).
Qed.

Lemma exception_at (force : NonbondedForce) (e : ExceptionInfo) :
  e ∈ exceptions force <->
  exists i, 0 <= i < getNumExceptions force /\ exceptions force !! Z.to_nat i = Some e.
Proof.
  unfold getNumExceptions. rewrite list_elem_of_lookup. split.
  - intros [n Hn]. exists (Z.of_nat n). rewrite Nat2Z.id.
    split; [|exact Hn]. apply lookup_lt_Some in Hn. lia.
  - intros (i & _ & Hi). eauto.
Qed.

(** After the whole loop, from an empty table: [b] is excluded from [a]
    exactly when an exception pairs them. *)
Lemma scanned_paired (force : NonbondedForce) (n : nat) (st : list (gset Z) * list Z) :
  scanned force (resize n ∅ []) (getNumExceptions force) st ->
  forall a b, excluded st.1 a b <-> pairedBy force a b.
Proof.
  intros (_ & Hex & _) a b. rewrite Hex. unfold pairedBy. split.
  - intros [H | (i & e & Hi & He & Hp)]; [destruct (excluded_fresh _ _ _ H)|].
    exists e. split; [apply exception_at; eauto | exact Hp].
  - intros (e & He & Hp). right. apply exception_at in He as (i & Hi & He). eauto.
Qed.

(** Every exception is entered in both directions, whatever the table
    held before. *)
Lemma scanned_both (force : NonbondedForce) (excl0 : list (gset Z))
    (st : list (gset Z) * list Z) (e : ExceptionInfo) :
  scanned force excl0 (getNumExceptions force) st ->
  e ∈ exceptions force ->
  excluded st.1 (particle1 e) (particle2 e) /\ excluded st.1 (particle2 e) (particle1 e).
Proof.
  intros (_ & Hex & _) He. apply exception_at in He as (i & Hi & He).
  split; apply Hex; right; exists i, e; auto.
Qed.

Lemma pairedBy_sym (force : NonbondedForce) (a b : Z) :
  pairedBy force a b -> pairedBy force b a.
Proof. intros (e & He & Hp). exists e. split; [exact He | tauto]. Qed.

Lemma pairedBy_self (force : NonbondedForce) (a : Z) :
  pairedBy force a a <->
  exists e, e ∈ exceptions force /\ particle1 e = a /\ particle2 e = a.
Proof.
  unfold pairedBy. split; intros (e & He & Hp); exists e; (split; [exact He | tauto]).
Qed.

(* ===================================================================== *)
(** ** The operations of the kernel *)
(* ===================================================================== *)

Section Claims.

Context {System CpuNeighborList : Type}.
Variable computeNeighborList :
  CpuNeighborList -> Z -> list single -> list (gset Z) ->
  single * single * single -> bool -> double -> CpuNeighborList.
Variable calcEwaldParameters : System -> NonbondedForce -> double * (Z * Z * Z).
Variable calcPMEParameters : System -> NonbondedForce -> double * (Z * Z * Z).
Variable tailCorrection : System -> NonbondedForce -> double.

Abbreviation Kernel := (CpuCalcNonbondedForceKernel CpuNeighborList).
Abbreviation init := (initialize calcEwaldParameters calcPMEParameters tailCorrection).
Abbreviation exec := (execute computeNeighborList).
Abbreviation ready :=
  (Ready computeNeighborList calcEwaldParameters calcPMEParameters tailCorrection).

(** What [execute] does to the positions, for every method: component
    [j] of particle [i] is wrapped when the method is CutoffPeriodic and
    only cast otherwise, the charges stay, and the neighbor search is
    run on the result. *)
Lemma execute_converts_positions (k : Kernel) (context : ContextImpl)
    (f1 f2 f3 f4 : bool) :
  kernel_wf k -> hasPositions k context ->
  exists pq,
    exec k context f1 f2 f3 f4 =
      Ok (dzero, setWorking k pq (searched computeNeighborList k context pq), context) /\
    length pq = length (posq k) /\
    (forall i p j, 0 <= i < numParticles k ->
       positions context !! Z.to_nat i = Some p -> 0 <= j < 3 ->
       pq !! Z.to_nat (4 * i + j) =
         Some (coordinateOf (nonbondedMethod k) (periodicBoxSize context) p j)) /\
    (forall i, 0 <= i -> pq !! Z.to_nat (4 * i + 3) = posq k !! Z.to_nat (4 * i + 3)).
Proof.
  intros Hwf Hpos.
  destruct (convertPositions_spec k context Hwf Hpos) as (pq & Hc & Hl & Hx & Hq).
  destruct (execute_spec computeNeighborList k context f1 f2 f3 f4 Hwf Hpos)
    as (pq' & Hc' & Hexec).
  rewrite Hc in Hc'. injection Hc' as <-.
  exists pq. auto.
Qed.

(** C1, as the code has it: for two particles with charges +1 and -1 at
    distance 1.0, no cutoff and no periodicity, [initialize] succeeds and
    [execute] returns 0.0 as the energy whether [includeEnergy] is set or
    not; the context comes back as it was. *)
Theorem execute_dipole_energy_zero (k0 : Kernel) (system : System)
    (force : NonbondedForce) (context : ContextImpl)
    (pa pb : ParticleInfo) (ra rb : RealVec)
    (includeForces includeEnergy includeDirect includeReciprocal : bool) :
  particles force = [pa; pb] ->
  charge pa = d_of_Z 1 ->
  charge pb = d_of_Z (-1) ->
  getNonbondedMethod force = NoCutoff ->
  exceptionsInRange force = true ->
  positions context = [ra; rb] ->
  distance ra rb = done ->
  exists k k',
    init k0 system force = Ok k /\
    exec k context includeForces includeEnergy includeDirect includeReciprocal
      = Ok (dzero, k', context) /\
    energyOf (exec k context includeForces includeEnergy includeDirect includeReciprocal)
      = Some dzero.
Proof.
  intros Hps _ _ _ Hrange Hpos _.
  destruct (initialize_spec calcEwaldParameters calcPMEParameters tailCorrection
              k0 system force Hrange)
    as (k & st & Hinit & _ & _ & _ & _ & Hn & _).
  assert (Hwf : kernel_wf k) by (eapply initialize_wf; exact Hinit).
  assert (Hhas : hasPositions k context).
  { unfold hasPositions, getNumParticles in *. rewrite Hn, Hps, Hpos. simpl. lia. }
  destruct (execute_spec computeNeighborList k context
              includeForces includeEnergy includeDirect includeReciprocal Hwf Hhas)
    as (pq & _ & Hexec).
  exists k. eexists. split; [exact Hinit|]. split; [exact Hexec|].
  rewrite Hexec. reflexivity.
Qed.

(** C2, as the code has it: for a Ready kernel with a periodic method and
    a box edge below twice the cutoff, [execute] does not fail: it runs
    the neighbor search on the converted positions with the periodic flag
    set and returns 0.0, and the force buffer is not written. *)
Theorem execute_small_box_no_failure (k : Kernel) (context : ContextImpl)
    (f1 f2 f3 f4 : bool) :
  ready k ->
  usesPeriodic (nonbondedMethod k) = true ->
  boxTooSmall (nonbondedCutoff k) (periodicBoxSize context) = true ->
  hasPositions k context ->
  exists k',
    exec k context f1 f2 f3 f4 = Ok (dzero, k', context) /\
    neighborList k' =
      computeNeighborList (neighborList k) (numParticles k) (posq k') (exclusions k)
        (toFloatBox (periodicBoxSize context)) true (nonbondedCutoff k) /\
    ~ throws (exec k context f1 f2 f3 f4).
Proof.
  intros Hready Hper _ Hpos. apply Ready_wf in Hready.
  destruct (execute_spec computeNeighborList k context f1 f2 f3 f4 Hready Hpos)
    as (pq & _ & Hexec).
  eexists. split; [exact Hexec|]. split.
  - simpl. unfold searched. rewrite Hper. reflexivity.
  - intros [msg Hmsg]. rewrite Hexec in Hmsg. discriminate.
Qed.

(** C4, as the code has it: [copyParametersToContext] succeeds for every
    configuration, also when its particle count or its number of
    non-excluded exceptions differs from the one recorded by
    [initialize]; it never fails with TopologyChanged. *)
Theorem copyParametersToContext_never_fails (k0 k : Kernel) (system : System)
    (force0 force : NonbondedForce) (context : ContextImpl) :
  init k0 system force0 = Ok k ->
  (getNumParticles force <> numParticles k \/ count14 force <> num14 k ->
     exists r, copyParametersToContext k context force = Ok r) /\
  (getNumParticles force = numParticles k /\ count14 force = num14 k ->
     exists r, copyParametersToContext k context force = Ok r) /\
  ~ throws (copyParametersToContext k context force).
Proof.
  intros _. unfold copyParametersToContext. repeat split.
  - intros _. eexists. reflexivity.
  - intros _. eexists. reflexivity.
  - intros [msg Hmsg]. discriminate.
Qed.

(** C5: after [initialize] the dispersion coefficient is zero when the
    dispersion-correction flag is off or the method is non-periodic, and
    it is the tail coefficient of [calcDispersionCorrection] when the flag
    is on and the method is periodic. *)
Theorem initialize_dispersionCoefficient (k0 : Kernel) (system : System)
    (force : NonbondedForce) :
  exceptionsInRange force = true ->
  exists k,
    init k0 system force = Ok k /\
    (getUseDispersionCorrection force = false -> dispersionCoefficient k = dzero) /\
    (usesPeriodic (getNonbondedMethod force) = false -> dispersionCoefficient k = dzero) /\
    (getUseDispersionCorrection force = true ->
     usesPeriodic (getNonbondedMethod force) = true ->
     dispersionCoefficient k = calcDispersionCorrection tailCorrection system force /\
     dispersionCoefficient k = tailCorrection system force).
Proof.
  intros Hrange.
  destruct (initialize_spec calcEwaldParameters calcPMEParameters tailCorrection
              k0 system force Hrange)
    as (k & st & Hinit & _ & _ & _ & _ & _ & _ & _ & Hd).
  exists k. split; [exact Hinit|]. rewrite Hd. unfold calcDispersionCorrection.
  split; [|split].
  - intros ->. reflexivity.
  - intros ->. destruct (getUseDispersionCorrection force); reflexivity.
  - intros -> ->. auto.
Qed.

(** C6: during [initialize] exception [i] is put on the 1-4 list [nb14s]
    exactly when its charge product or its epsilon is nonzero; [num14] is
    the number of such exceptions; and every exception, listed or not,
    is entered in the exclusion sets of both its particles. *)
Theorem initialize_identifies_scaled_pairs (k0 : Kernel) (system : System)
    (force : NonbondedForce) :
  exceptionsInRange force = true ->
  exists k nb14s excl,
    init k0 system force = Ok k /\
    scanExceptions force
      (resize (Z.to_nat (getNumParticles force)) ∅ (exclusions k0)) = Ok (excl, nb14s) /\
    exclusions k = excl /\
    (forall i, i ∈ nb14s <->
       0 <= i < getNumExceptions force /\
       exists e, exceptions force !! Z.to_nat i = Some e /\
         (dne (chargeProd e) dzero = true \/ dne (epsilon e) dzero = true)) /\
    num14 k = Z.of_nat (length nb14s) /\
    num14 k = Z.of_nat (length (List.filter
                (fun e => dne (chargeProd e) dzero || dne (epsilon e) dzero)
                (exceptions force))) /\
    (forall e, e ∈ exceptions force ->
       excluded (exclusions k) (particle1 e) (particle2 e) /\
       excluded (exclusions k) (particle2 e) (particle1 e)).
Proof.
  intros Hrange.
  destruct (initialize_spec calcEwaldParameters calcPMEParameters tailCorrection
              k0 system force Hrange)
    as (k & [excl nb14s] & Hinit & Hscan & Hst & Hex & H14 & _).
  exists k, nb14s, excl. simpl in *.
  split; [exact Hinit|]. split; [exact Hscan|]. split; [exact Hex|].
  pose proof Hst as (_ & _ & Hnb & Hcount). simpl in *.
  split; [|split; [exact H14|split]].
  - intros i. rewrite Hnb. unfold is14. setoid_rewrite orb_true_iff. reflexivity.
  - rewrite H14, Hcount. rewrite take_ge; [reflexivity|].
    unfold getNumExceptions. lia.
  - intros e He. rewrite Hex. exact (scanned_both force _ _ e Hst He).
Qed.

(** C7, as the code has it: after [initialize] of a constructed kernel,
    [b] is in the exclusion set of [a] exactly when a configured exception
    pairs them; so the table is symmetric, every exception (p1, p2) is
    present in both directions, and a particle is in its own exclusion
    set exactly when an exception pairs it with itself. *)
Theorem initialize_exclusions_symmetric (k0 : Kernel) (system : System)
    (force : NonbondedForce) :
  constructed k0 ->
  exceptionsInRange force = true ->
  exists k,
    init k0 system force = Ok k /\
    (forall a b, excluded (exclusions k) a b <-> pairedBy force a b) /\
    (forall a b, excluded (exclusions k) a b -> excluded (exclusions k) b a) /\
    (forall e, e ∈ exceptions force ->
       excluded (exclusions k) (particle1 e) (particle2 e) /\
       excluded (exclusions k) (particle2 e) (particle1 e)) /\
    (forall a, excluded (exclusions k) a a <->
       exists e, e ∈ exceptions force /\ particle1 e = a /\ particle2 e = a).
Proof.
  intros [_ Hfresh] Hrange.
  destruct (initialize_spec calcEwaldParameters calcPMEParameters tailCorrection
              k0 system force Hrange)
    as (k & st & Hinit & _ & Hst & Hex & _).
  exists k. split; [exact Hinit|]. rewrite Hex.
  assert (Hchar : forall a b, excluded st.1 a b <-> pairedBy force a b).
  { rewrite Hfresh in Hst. exact (scanned_paired force _ st Hst). }
  split; [exact Hchar|]. split; [|split].
  - intros a b Hab. apply Hchar, pairedBy_sym, Hchar, Hab.
  - intros e He. exact (scanned_both force _ _ e Hst He).
  - intros a. rewrite Hchar. apply pairedBy_self.
Qed.

(** C8: [copyParametersToContext] with the configuration given to
    [initialize], followed by [execute], gives the very result of
    [execute] alone: the same energy, kernel state and context, for
    every flag combination. *)
Theorem update_then_execute_same (k0 k : Kernel) (system : System)
    (force : NonbondedForce) (context : ContextImpl) (f1 f2 f3 f4 : bool) :
  init k0 system force = Ok k ->
  (st ← copyParametersToContext k context force; exec st.1 st.2 f1 f2 f3 f4)
    = exec k context f1 f2 f3 f4.
Proof. intros _. reflexivity. Qed.

(** C9: for a Ready kernel and a context with a position for each of its
    particles, [execute] returns exactly 0.0 under every flag
    combination and hands the context back unchanged, the force buffer
    included; in the kernel only [posq] and the neighbor list are
    assigned, and in [posq] only the position components. *)
Theorem execute_returns_zero (k : Kernel) (context : ContextImpl)
    (includeForces includeEnergy includeDirect includeReciprocal : bool) :
  ready k ->
  hasPositions k context ->
  exists k' context',
    exec k context includeForces includeEnergy includeDirect includeReciprocal
      = Ok (dzero, k', context') /\
    context' = context /\
    forces context' = forces context /\
    k' = setWorking k (posq k') (neighborList k') /\
    neighborList k' = searched computeNeighborList k context (posq k') /\
    length (posq k') = length (posq k) /\
    (forall i, 0 <= i -> posq k' !! Z.to_nat (4 * i + 3) = posq k !! Z.to_nat (4 * i + 3)).
Proof.
  intros Hready Hpos. apply Ready_wf in Hready.
  destruct (execute_converts_positions k context
              includeForces includeEnergy includeDirect includeReciprocal Hready Hpos)
    as (pq & Hexec & Hl & _ & Hq).
  exists (setWorking k pq (searched computeNeighborList k context pq)), context.
  split; [exact Hexec|]. simpl. auto 10.
Qed.

(** C10: [copyParametersToContext] returns, for every configuration,
    with the kernel and the context as they were: the charges in [posq],
    the exclusion sets, [num14], the method, the cutoff, the switching
    settings, the Ewald and PME parameters and the dispersion
    coefficient are unchanged, and nothing is thrown. *)
Theorem copyParametersToContext_frame (k : Kernel) (context : ContextImpl)
    (force : NonbondedForce) :
  exists k' context',
    copyParametersToContext k context force = Ok (k', context') /\
    k' = k /\ context' = context /\
    posq k' = posq k /\ exclusions k' = exclusions k /\
    numParticles k' = numParticles k /\ num14 k' = num14 k /\
    nonbondedMethod k' = nonbondedMethod k /\
    nonbondedCutoff k' = nonbondedCutoff k /\
    useSwitchingFunction k' = useSwitchingFunction k /\
    switchingDistance k' = switchingDistance k /\
    ewaldAlpha k' = ewaldAlpha k /\ kmax k' = kmax k /\ gridSize k' = gridSize k /\
    rfDielectric k' = rfDielectric k /\
    dispersionCoefficient k' = dispersionCoefficient k /\
    ~ throws (copyParametersToContext k context force).
Proof.
  exists k, context. unfold copyParametersToContext.
  repeat (split; [reflexivity|]). intros [msg Hmsg]. discriminate.
Qed.

End Claims.

(* ===================================================================== *)
(** ** The operations on concrete systems *)
(* ===================================================================== *)

Import Scenario.

Example initialize_chain_num14 : num14 (kernelOf chain) = 1.
Proof. vm_compute. reflexivity. Qed.

Example initialize_chain_charges :
  map (fun i => posq (kernelOf chain) !! i) [3; 7; 11]%nat
    = map (fun q => Some (to_float (d_of_Z q))) [1; 0; -1].
Proof. vm_compute. reflexivity. Qed.

(** Under CutoffPeriodic, x = 5 in a box of edge 4 is wrapped to
    5 - floor(5/4 + 0.5) * 4 = 1. *)
Example execute_chain_wraps :
  (r ← run (kernelOf chain)
         (hostContext [vec 0 0 0; vec 1 0 0; vec 5 0 0] (vec 4 4 4)) true true true true;
   Ok (posq r.1.2 !! 8%nat))
    = Ok (Some (to_float (d_of_Z 1))).
Proof. vm_compute. reflexivity. Qed.

(** An exception that names a particle the configuration does not have. *)
Example initialize_out_of_range :
  init fresh (configure [particle 1] [excludedPair] NoCutoff false) = Undefined.
Proof. vm_compute. reflexivity. Qed.

Lemma kernelOf_ready (force : NonbondedForce) :
  init fresh force = Ok (kernelOf force) -> Scenario.ready (kernelOf force).
Proof.
  intros H. unfold Scenario.ready.
  apply Ready_initialize with (k0 := fresh) (system := tt) (force := force).
  - split; reflexivity.
  - exact H.
Defined.

(** The dipole of C1: [execute] returns +0.0 with [includeEnergy] set,
    where the Coulomb energy of the pair is -138.935456. *)
Lemma execute_dipole_energy_not_coulomb :
  exists k,
    init fresh dipole = Ok k /\
    distance (vec 0 0 0) (vec 1 0 0) = done /\
    energyOf (run k dipoleContext true true true true) = Some dzero /\
    coulombEnergy (d_of_Z 1) (d_of_Z (-1)) done
      = S754_finite true 4888356780235546 (-45) /\
    energyOf (run k dipoleContext true true true true)
      <> Some (coulombEnergy (d_of_Z 1) (d_of_Z (-1)) done).
Proof.
  exists (kernelOf dipole).
  split; [vm_compute; reflexivity|]. split; [vm_compute; reflexivity|].
  split; [vm_compute; reflexivity|]. split; [vm_compute; reflexivity|].
  vm_compute. discriminate.
Qed.

Lemma execute_dipole_energy_zero_witness :
  exceptionsInRange dipole = true /\
  distance (vec 0 0 0) (vec 1 0 0) = done /\
  exists k k',
    init fresh dipole = Ok k /\
    run k dipoleContext false true true true = Ok (dzero, k', dipoleContext) /\
    energyOf (run k dipoleContext false true true true) = Some dzero.
Proof.
  split; [reflexivity|]. split; [vm_compute; reflexivity|].
  apply (execute_dipole_energy_zero logSearch ewaldPars pmePars tail
           fresh tt dipole dipoleContext (particle 1) (particle (-1))
           (vec 0 0 0) (vec 1 0 0) false true true true);
    vm_compute; reflexivity.
Defined.

(** The cramped box of C2: the method is periodic, the box edge 1 is below
    twice the cutoff 1, and [execute] returns 0.0 after one neighbor
    search; nothing is thrown. *)
Lemma execute_cramped_box_returns :
  exists k,
    init fresh cramped = Ok k /\
    usesPeriodic (nonbondedMethod k) = true /\
    boxTooSmall (nonbondedCutoff k) (periodicBoxSize crampedContext) = true /\
    (exists k', run k crampedContext true true true true = Ok (dzero, k', crampedContext) /\
                length (neighborList k') = 1%nat) /\
    ~ throws (run k crampedContext true true true true).
Proof.
  exists (kernelOf cramped).
  split; [vm_compute; reflexivity|]. split; [reflexivity|].
  split; [vm_compute; reflexivity|]. split.
  - eexists. split; [vm_compute; reflexivity | reflexivity].
  - intros [msg Hmsg]. vm_compute in Hmsg. discriminate.
Qed.

Lemma execute_small_box_no_failure_witness :
  Scenario.ready (kernelOf cramped) /\
  usesPeriodic (nonbondedMethod (kernelOf cramped)) = true /\
  boxTooSmall (nonbondedCutoff (kernelOf cramped)) (periodicBoxSize crampedContext) = true /\
  hasPositions (kernelOf cramped) crampedContext /\
  exists k',
    run (kernelOf cramped) crampedContext true true true true
      = Ok (dzero, k', crampedContext) /\
    neighborList k' =
      logSearch (neighborList (kernelOf cramped)) (numParticles (kernelOf cramped))
        (posq k') (exclusions (kernelOf cramped))
        (toFloatBox (periodicBoxSize crampedContext)) true
        (nonbondedCutoff (kernelOf cramped)) /\
    ~ throws (run (kernelOf cramped) crampedContext true true true true).
Proof.
  assert (Hready : Scenario.ready (kernelOf cramped))
    by (apply kernelOf_ready; vm_compute; reflexivity).
  assert (Hpos : hasPositions (kernelOf cramped) crampedContext)
    by (vm_compute; discriminate).
  split; [exact Hready|]. split; [reflexivity|].
  split; [vm_compute; reflexivity|]. split; [exact Hpos|].
  apply (execute_small_box_no_failure logSearch ewaldPars pmePars tail
           (kernelOf cramped) crampedContext true true true true Hready).
  - reflexivity.
  - vm_compute; reflexivity.
  - exact Hpos.
Defined.

(** C3 on an Ewald system: one particle at x = 3 in a box of edge 2.  The
    method is periodic and the neighbor search is asked for a periodic
    list, yet [posq[0]] is the plain cast 3.0f; the minimum-image wrap
    3 - floor(3/2 + 0.5) * 2 would have given -1.0f. *)
Theorem execute_ewald_positions_unwrapped :
  exists k k',
    init fresh ewaldOne = Ok k /\
    usesPeriodic (nonbondedMethod k) = true /\
    run k ewaldContext true true true true = Ok (dzero, k', ewaldContext) /\
    posq k' !! 0%nat = Some (to_float (d_of_Z 3)) /\
    wrapCoordinate (d_of_Z 3) (d_of_Z 2) = to_float (d_of_Z (-1)) /\
    posq k' !! 0%nat <> Some (wrapCoordinate (d_of_Z 3) (d_of_Z 2)) /\
    map callPeriodic (neighborList k') = [true].
Proof.
  exists (kernelOf ewaldOne). eexists.
  split; [vm_compute; reflexivity|]. split; [reflexivity|].
  split; [vm_compute; reflexivity|]. split; [vm_compute; reflexivity|].
  split; [vm_compute; reflexivity|]. split; [|vm_compute; reflexivity].
  vm_compute. discriminate.
Qed.

(** The update of C4 with another topology: the kernel was initialized
    with two particles and no scaled pair, the new configuration has three
    particles and one scaled pair, and the call returns. *)
Lemma update_changed_topology_returns :
  exists k,
    init fresh dipole = Ok k /\
    getNumParticles chainNoCutoff <> numParticles k /\
    count14 chainNoCutoff <> num14 k /\
    copyParametersToContext k dipoleContext chainNoCutoff = Ok (k, dipoleContext) /\
    ~ throws (copyParametersToContext k dipoleContext chainNoCutoff).
Proof.
  exists (kernelOf dipole).
  split; [vm_compute; reflexivity|]. split; [vm_compute; discriminate|].
  split; [vm_compute; discriminate|]. split; [reflexivity|].
  intros [msg Hmsg]. discriminate.
Qed.

Lemma copyParametersToContext_never_fails_witness :
  init fresh dipole = Ok (kernelOf dipole) /\
  (getNumParticles chainNoCutoff <> numParticles (kernelOf dipole) \/
   count14 chainNoCutoff <> num14 (kernelOf dipole)) /\
  exists r, copyParametersToContext (kernelOf dipole) dipoleContext chainNoCutoff = Ok r.
Proof.
  assert (Hinit : init fresh dipole = Ok (kernelOf dipole)) by (vm_compute; reflexivity).
  assert (Hdiff : getNumParticles chainNoCutoff <> numParticles (kernelOf dipole) \/
                  count14 chainNoCutoff <> num14 (kernelOf dipole))
    by (left; vm_compute; discriminate).
  split; [exact Hinit|]. split; [exact Hdiff|].
  exact (proj1 (copyParametersToContext_never_fails ewaldPars pmePars tail
                  fresh (kernelOf dipole) tt dipole chainNoCutoff dipoleContext Hinit)
               Hdiff).
Defined.

Lemma initialize_dispersionCoefficient_witness :
  exceptionsInRange chain = true /\
  exists k,
    init fresh chain = Ok k /\
    (getUseDispersionCorrection chain = false -> dispersionCoefficient k = dzero) /\
    (usesPeriodic (getNonbondedMethod chain) = false -> dispersionCoefficient k = dzero) /\
    (getUseDispersionCorrection chain = true ->
     usesPeriodic (getNonbondedMethod chain) = true ->
     dispersionCoefficient k = calcDispersionCorrection tail tt chain /\
     dispersionCoefficient k = tail tt chain).
Proof.
  split; [reflexivity|].
  apply (initialize_dispersionCoefficient ewaldPars pmePars tail fresh tt chain).
  reflexivity.
Defined.

Lemma initialize_identifies_scaled_pairs_witness :
  exceptionsInRange chain = true /\
  exists k nb14s excl,
    init fresh chain = Ok k /\
    scanExceptions chain
      (resize (Z.to_nat (getNumParticles chain)) ∅ (exclusions fresh)) = Ok (excl, nb14s) /\
    exclusions k = excl /\
    (forall i, i ∈ nb14s <->
       0 <= i < getNumExceptions chain /\
       exists e, exceptions chain !! Z.to_nat i = Some e /\
         (dne (chargeProd e) dzero = true \/ dne (epsilon e) dzero = true)) /\
    num14 k = Z.of_nat (length nb14s) /\
    num14 k = Z.of_nat (length (List.filter
                (fun e => dne (chargeProd e) dzero || dne (epsilon e) dzero)
                (exceptions chain))) /\
    (forall e, e ∈ exceptions chain ->
       excluded (exclusions k) (particle1 e) (particle2 e) /\
       excluded (exclusions k) (particle2 e) (particle1 e)).
Proof.
  split; [reflexivity|].
  apply (initialize_identifies_scaled_pairs ewaldPars pmePars tail fresh tt chain).
  reflexivity.
Defined.

(** C7 on a particle excepted with itself: after [initialize], particle 0
    is in its own exclusion set. *)
Lemma initialize_self_exclusion :
  exists k,
    init fresh selfExcepted = Ok k /\
    exceptionsInRange selfExcepted = true /\
    excluded (exclusions k) 0 0.
Proof.
  exists (kernelOf selfExcepted).
  split; [vm_compute; reflexivity|]. split; [reflexivity|].
  split; [lia|]. exists ({[0]} ∪ ({[0]} ∪ ∅)).
  split; [vm_compute; reflexivity|].
  apply elem_of_union. left. apply elem_of_singleton. reflexivity.
Qed.

Lemma initialize_exclusions_symmetric_witness :
  constructed fresh /\
  exceptionsInRange chain = true /\
  exists k,
    init fresh chain = Ok k /\
    (forall a b, excluded (exclusions k) a b <-> pairedBy chain a b) /\
    (forall a b, excluded (exclusions k) a b -> excluded (exclusions k) b a) /\
    (forall e, e ∈ exceptions chain ->
       excluded (exclusions k) (particle1 e) (particle2 e) /\
       excluded (exclusions k) (particle2 e) (particle1 e)) /\
    (forall a, excluded (exclusions k) a a <->
       exists e, e ∈ exceptions chain /\ particle1 e = a /\ particle2 e = a).
Proof.
  assert (Hfresh : constructed fresh) by (split; reflexivity).
  split; [exact Hfresh|]. split; [reflexivity|].
  apply (initialize_exclusions_symmetric ewaldPars pmePars tail fresh tt chain Hfresh).
  reflexivity.
Defined.

Lemma update_then_execute_same_witness :
  init fresh dipole = Ok (kernelOf dipole) /\
  (st ← copyParametersToContext (kernelOf dipole) dipoleContext dipole;
   run st.1 st.2 true true true true)
    = run (kernelOf dipole) dipoleContext true true true true.
Proof.
  assert (Hinit : init fresh dipole = Ok (kernelOf dipole)) by (vm_compute; reflexivity).
  split; [exact Hinit|].
  exact (update_then_execute_same logSearch ewaldPars pmePars tail
           fresh (kernelOf dipole) tt dipole dipoleContext true true true true Hinit).
Defined.

Lemma execute_returns_zero_witness :
  Scenario.ready (kernelOf chain) /\
  hasPositions (kernelOf chain) (hostContext [vec 0 0 0; vec 1 0 0; vec 5 0 0] (vec 4 4 4)) /\
  exists k' context',
    run (kernelOf chain) (hostContext [vec 0 0 0; vec 1 0 0; vec 5 0 0] (vec 4 4 4))
      true true true true = Ok (dzero, k', context') /\
    context' = hostContext [vec 0 0 0; vec 1 0 0; vec 5 0 0] (vec 4 4 4).
Proof.
  assert (Hready : Scenario.ready (kernelOf chain))
    by (apply kernelOf_ready; vm_compute; reflexivity).
  assert (Hpos : hasPositions (kernelOf chain)
                   (hostContext [vec 0 0 0; vec 1 0 0; vec 5 0 0] (vec 4 4 4)))
    by (vm_compute; discriminate).
  split; [exact Hready|]. split; [exact Hpos|].
  destruct (execute_returns_zero logSearch ewaldPars pmePars tail (kernelOf chain)
              (hostContext [vec 0 0 0; vec 1 0 0; vec 5 0 0] (vec 4 4 4))
              true true true true Hready Hpos)
    as (k' & context' & Hexec & Hctx & _).
  exists k', context'. split; [exact Hexec | exact Hctx].
Defined.

(* ===================================================================== *)
(** ** More on loops: what a returned loop has gone through *)
(* ===================================================================== *)

Lemma for_loop_partial {St : Type} (body : Z -> St -> outcome St) (P : Z -> St -> Prop) :
  forall (n : nat) (i : Z) (s s' : St),
    for_loop body n i s = Ok s' ->
    P i s ->
    (forall j t t', i <= j < i + Z.of_nat n -> P j t -> body j t = Ok t' -> P (j + 1) t') ->
    P (i + Z.of_nat n) s'.
Proof.
  induction n as [|n IH]; intros i s s' Hrun HP Hstep; simpl in Hrun.
  - injection Hrun as <-. rewrite Z.add_0_r. exact HP.
  - destruct (body i s) as [t| |] eqn:Hb; simpl in Hrun; try discriminate.
    replace (i + Z.of_nat (S n)) with (i + 1 + Z.of_nat n) by lia.
    apply (IH (i + 1) t s' Hrun).
    + apply (Hstep i s t); [lia | exact HP | exact Hb].
    + intros j u u' Hj Hu Hbu. apply (Hstep j u u'); [lia | exact Hu | exact Hbu].
Qed.

Lemma for_loop_no_throw {St : Type} (body : Z -> St -> outcome St) :
  (forall j t, ~ throws (body j t)) ->
  forall (n : nat) (i : Z) (s : St), ~ throws (for_loop body n i s).
Proof.
  intros Hbody. induction n as [|n IH]; intros i s [msg Hmsg]; simpl in Hmsg.
  - discriminate.
  - destruct (body i s) as [t| |] eqn:Hb; simpl in Hmsg.
    + apply (IH (i + 1) t). exists msg. exact Hmsg.
    + apply (Hbody i s). exists msg0. exact Hb.
    + discriminate.
Qed.

Lemma load_no_throw {A : Type} (v : list A) (i : Z) : ~ throws (load v i).
Proof.
  intros [msg H]. unfold load in H.
  destruct (0 <=? i); [destruct (v !! Z.to_nat i)|]; discriminate.
Qed.

Lemma store_no_throw {A : Type} (v : list A) (i : Z) (x : A) : ~ throws (store v i x).
Proof.
  intros [msg H]. unfold store in H.
  destruct ((0 <=? i) && (i <? Z.of_nat (length v))); discriminate.
Qed.

(** A run that neither returned nor threw went outside a vector. *)
Lemma outcome_cases {A : Type} (c : outcome A) :
  ~ throws c -> (forall a, c <> Ok a) -> c = Undefined.
Proof.
  intros Hthrow Hok. destruct c as [a|msg|].
  - destruct (Hok a). reflexivity.
  - destruct Hthrow. exists msg. reflexivity.
  - reflexivity.
Qed.

Lemma bind_no_throw {A B : Type} (c : outcome A) (f : A -> outcome B) :
  ~ throws c -> (forall a, ~ throws (f a)) -> ~ throws (c ≫= f).
Proof.
  intros Hc Hf [msg H]. destruct c as [a|m|]; simpl in H.
  - apply (Hf a). exists msg. exact H.
  - apply Hc. exists m. reflexivity.
  - discriminate.
Qed.

(* ===================================================================== *)
(** ** More on initialize *)
(* ===================================================================== *)

Lemma insertExclusion_Ok (excl excl' : list (gset Z)) (p q : Z) :
  insertExclusion excl p q = Ok excl' -> 0 <= p < Z.of_nat (length excl).
Proof.
  unfold insertExclusion. destruct (load excl p) as [s| |]; simpl; try discriminate.
  intros H. apply store_Ok in H as [H _]. exact H.
Qed.

Lemma insertExclusion_no_throw (excl : list (gset Z)) (p q : Z) :
  ~ throws (insertExclusion excl p q).
Proof.
  unfold insertExclusion. apply bind_no_throw; [apply load_no_throw|].
  intros s. apply store_no_throw.
Qed.

Lemma exceptionStep_no_throw (force : NonbondedForce) (i : Z) st :
  ~ throws (exceptionStep force i st).
Proof.
  unfold exceptionStep. apply bind_no_throw; [apply load_no_throw|]. intros e.
  apply bind_no_throw; [apply insertExclusion_no_throw|]. intros x1.
  apply bind_no_throw; [apply insertExclusion_no_throw|]. intros x2.
  intros [msg H]. discriminate.
Qed.

Lemma chargeStep_no_throw (force : NonbondedForce) (i : Z) pq :
  ~ throws (chargeStep force i pq).
Proof.
  unfold chargeStep. apply bind_no_throw; [apply load_no_throw|].
  intros p. apply store_no_throw.
Qed.

(** A scan that returned has met in-range exceptions only. *)
Lemma scanExceptions_Ok_in_range (force : NonbondedForce) (excl0 : list (gset Z)) st :
  Z.of_nat (length excl0) = getNumParticles force ->
  scanExceptions force excl0 = Ok st ->
  exceptionsInRange force = true.
Proof.
  intros Hlen Hscan. unfold scanExceptions in Hscan.
  apply (for_loop_partial _
           (fun m (t : list (gset Z) * list Z) =>
              length t.1 = length excl0 /\
              forall i e, 0 <= i < m -> exceptions force !! Z.to_nat i = Some e ->
                          exceptionInRange (getNumParticles force) e = true))
    in Hscan.
  - destruct Hscan as [_ Hall]. unfold exceptionsInRange.
    apply forallb_forall. intros e He.
    apply list_elem_of_In, list_elem_of_lookup in He as [n Hn].
    apply (Hall (Z.of_nat n) e); [|rewrite Nat2Z.id; exact Hn].
    apply lookup_lt_Some in Hn. unfold getNumExceptions. lia.
  - split; [reflexivity|]. intros i e Hi. lia.
  - intros j t t' Hj [Hl Hall] Hb. split; [rewrite <- Hl; eapply exceptionStep_length; eauto|].
    intros i e Hi He. destruct (decide (i = j)) as [->|Hne]; [|apply (Hall i e); [lia | exact He]].
    unfold exceptionStep in Hb.
    destruct (load (exceptions force) j) as [e'| |] eqn:Hload; simpl in Hb; try discriminate.
    apply load_Ok in Hload as [_ Hload]. rewrite He in Hload. injection Hload as <-.
    destruct (insertExclusion t.1 (particle1 e) (particle2 e)) as [x1| |] eqn:E1;
      simpl in Hb; try discriminate.
    destruct (insertExclusion x1 (particle2 e) (particle1 e)) as [x2| |] eqn:E2;
      simpl in Hb; try discriminate.
    pose proof (insertExclusion_length _ _ _ _ E1) as L1.
    apply insertExclusion_Ok in E1, E2.
    unfold exceptionInRange. rewrite !andb_true_iff.
    repeat split; try apply Z.leb_le; try apply Z.ltb_lt; lia.
Qed.

(** The charge loop leaves the position components alone. *)
Lemma chargeLoop_frame (force : NonbondedForce) (n : nat) (pq0 pq : list single) :
  for_loop (chargeStep force) n 0 pq0 = Ok pq ->
  forall i j, 0 <= i -> 0 <= j < 3 ->
              pq !! Z.to_nat (4 * i + j) = pq0 !! Z.to_nat (4 * i + j).
Proof.
  intros Hrun.
  refine (for_loop_preserves (chargeStep force)
            (fun t => forall i j, 0 <= i -> 0 <= j < 3 ->
                        t !! Z.to_nat (4 * i + j) = pq0 !! Z.to_nat (4 * i + j))
            _ n 0 pq0 pq Hrun _); [|reflexivity].
  intros m t t' Hb Ht i j Hi Hj. unfold chargeStep in Hb.
  destruct (load (particles force) m) as [p| |]; simpl in Hb; try discriminate.
  apply store_Ok in Hb as [Hm ->].
  rewrite list_lookup_insert_ne by lia. apply Ht; assumption.
Qed.

Section InitializeMore.

Context {System CpuNeighborList : Type}.
Variable calcEwaldParameters : System -> NonbondedForce -> double * (Z * Z * Z).
Variable calcPMEParameters : System -> NonbondedForce -> double * (Z * Z * Z).
Variable tailCorrection : System -> NonbondedForce -> double.

Abbreviation Kernel := (CpuCalcNonbondedForceKernel CpuNeighborList).
Abbreviation init := (initialize calcEwaldParameters calcPMEParameters tailCorrection).

(** What a returned [initialize] has computed, member by member. *)
Lemma initialize_inv (k0 k : Kernel) (system : System) (force : NonbondedForce) :
  init k0 system force = Ok k ->
  exists st pq,
    scanExceptions force
      (resize (Z.to_nat (getNumParticles force)) ∅ (exclusions k0)) = Ok st /\
    for_loop (chargeStep force) (Z.to_nat (getNumParticles force)) 0
      (resize (Z.to_nat (4 * getNumParticles force)) fzero (posq k0)) = Ok pq /\
    numParticles k = getNumParticles force /\
    num14 k = Z.of_nat (length st.2) /\
    posq k = pq /\
    exclusions k = st.1 /\
    nonbondedMethod k = getNonbondedMethod force /\
    useSwitchingFunction k =
      (if NonbondedMethod_eqb (getNonbondedMethod force) NoCutoff
       then false else getUseSwitchingFunction force) /\
    switchingDistance k =
      (if NonbondedMethod_eqb (getNonbondedMethod force) NoCutoff
       then switchingDistance k0 else getSwitchingDistance force) /\
    ewaldAlpha k =
      match getNonbondedMethod force with
      | Ewald => (calcEwaldParameters system force).1
      | PME => (calcPMEParameters system force).1
      | _ => ewaldAlpha k0
      end /\
    kmax k =
      match getNonbondedMethod force with
      | Ewald => (calcEwaldParameters system force).2
      | _ => kmax k0
      end /\
    gridSize k =
      match getNonbondedMethod force with
      | PME => (calcPMEParameters system force).2
      | _ => gridSize k0
      end /\
    neighborList k = neighborList k0.
Proof.
  unfold initialize.
  destruct (scanExceptions force _) as [st| |] eqn:Hscan; simpl; try discriminate.
  destruct (for_loop (chargeStep force) _ 0 _) as [pq| |] eqn:Hq; simpl; try discriminate.
  intros [= <-]. exists st, pq. simpl. auto 20.
Qed.

Lemma initialize_no_throw (k0 : Kernel) (system : System) (force : NonbondedForce) :
  ~ throws (init k0 system force).
Proof.
  unfold initialize. apply bind_no_throw.
  - unfold scanExceptions. apply for_loop_no_throw. intros j t. apply exceptionStep_no_throw.
  - intros st. apply bind_no_throw.
    + apply for_loop_no_throw. intros j t. apply chargeStep_no_throw.
    + intros pq [msg H]. discriminate.
Qed.

End InitializeMore.

Lemma filter_length_all {A : Type} (f : A -> bool) (l : list A) :
  (length (List.filter f l) <= length l)%nat /\
  (length (List.filter f l) = length l <-> forall x, x ∈ l -> f x = true).
Proof.
  induction l as [|x l [IHle IHeq]]; simpl.
  - split; [lia|]. split; [|reflexivity]. intros _ x Hx. inversion Hx.
  - destruct (f x) eqn:Hfx; simpl.
    + split; [lia|]. split.
      * intros Hlen y Hy. apply elem_of_cons in Hy as [->|Hy]; [exact Hfx|].
        apply IHeq; [lia | exact Hy].
      * intros Hall. f_equal. apply IHeq. intros y Hy. apply Hall. right. exact Hy.
    + split; [lia|]. split; [lia|].
      intros Hall. rewrite (Hall x) in Hfx by left. discriminate.
Qed.

Lemma excluded_resize (l : list (gset Z)) (n : nat) (a b : Z) :
  a < Z.of_nat n -> excluded l a b -> excluded (resize n ∅ l) a b.
Proof.
  intros Ha (H0 & s & Hs & Hb). split; [exact H0|].
  exists s. split; [|exact Hb].
  rewrite lookup_resize; [exact Hs | lia | eapply lookup_lt_Some; exact Hs].
Qed.

Section InitializeExtras.

Context {System CpuNeighborList : Type}.
Variable calcEwaldParameters : System -> NonbondedForce -> double * (Z * Z * Z).
Variable calcPMEParameters : System -> NonbondedForce -> double * (Z * Z * Z).
Variable tailCorrection : System -> NonbondedForce -> double.

Abbreviation Kernel := (CpuCalcNonbondedForceKernel CpuNeighborList).
Abbreviation init := (initialize calcEwaldParameters calcPMEParameters tailCorrection).

(** The charges [initialize] leaves in [posq], for any prior kernel. *)
Lemma initialize_charges (k0 k : Kernel) (system : System) (force : NonbondedForce) :
  init k0 system force = Ok k ->
  Z.of_nat (length (posq k)) = 4 * getNumParticles force /\
  forall i p, 0 <= i -> particles force !! Z.to_nat i = Some p ->
              posq k !! Z.to_nat (4 * i + 3) = Some (to_float (charge p)).
Proof.
  intros Hinit.
  destruct (initialize_inv _ _ _ k0 k system force Hinit)
    as (st & pq & _ & Hq & _ & _ & Hposq & _).
  destruct (chargeLoop_spec force
              (resize (Z.to_nat (4 * getNumParticles force)) fzero (posq k0)))
    as (pq' & Hq' & Hl & Hc).
  { rewrite length_resize. unfold getNumParticles. lia. }
  rewrite Hq in Hq'. injection Hq' as <-. rewrite Hposq. split; [|exact Hc].
  rewrite Hl, length_resize. unfold getNumParticles. lia.
Qed.

(** X1: after [initialize] of a constructed kernel, [posq] has four
    entries per particle: the charge of particle [i], rounded to a float,
    at [4*i+3], and 0 in the three position components before it. *)
Theorem initialize_posq_layout (k0 : Kernel) (system : System) (force : NonbondedForce) :
  constructed k0 ->
  exceptionsInRange force = true ->
  exists k,
    init k0 system force = Ok k /\
    Z.of_nat (length (posq k)) = 4 * getNumParticles force /\
    forall i p, 0 <= i -> particles force !! Z.to_nat i = Some p ->
      posq k !! Z.to_nat (4 * i + 3) = Some (to_float (charge p)) /\
      forall j, 0 <= j < 3 -> posq k !! Z.to_nat (4 * i + j) = Some fzero.
Proof.
  intros [Hposq0 _] Hrange.
  destruct (initialize_spec calcEwaldParameters calcPMEParameters tailCorrection
              k0 system force Hrange) as (k & _ & Hinit & _).
  exists k. split; [exact Hinit|].
  destruct (initialize_charges k0 k system force Hinit) as [Hlen Hc].
  split; [exact Hlen|]. intros i p Hi Hp. split; [apply Hc; assumption|].
  intros j Hj.
  destruct (initialize_inv _ _ _ k0 k system force Hinit)
    as (st & pq & _ & Hq & _ & _ & Hpq & _).
  rewrite Hpq, (chargeLoop_frame force _ _ pq Hq i j Hi Hj), Hposq0, resize_nil.
  apply lookup_replicate_2. apply lookup_lt_Some in Hp.
  unfold getNumParticles. lia.
Qed.

(** X2: [initialize] returns exactly when every exception names two
    particles of the configuration; it never throws, and an exception with
    an index outside [0, numParticles) makes it index [exclusions] out of
    bounds. *)
Theorem initialize_returns_iff_in_range (k0 : Kernel) (system : System)
    (force : NonbondedForce) :
  ((exists k, init k0 system force = Ok k) <-> exceptionsInRange force = true) /\
  ~ throws (init k0 system force) /\
  (exceptionsInRange force = false -> init k0 system force = Undefined).
Proof.
  assert (Hiff : (exists k, init k0 system force = Ok k) <-> exceptionsInRange force = true).
  { split.
    - intros [k Hinit].
      destruct (initialize_inv _ _ _ k0 k system force Hinit) as (st & pq & Hscan & _).
      eapply scanExceptions_Ok_in_range; [|exact Hscan].
      rewrite length_resize. unfold getNumParticles. lia.
    - intros Hrange.
      destruct (initialize_spec calcEwaldParameters calcPMEParameters tailCorrection
                  k0 system force Hrange) as (k & _ & Hinit & _).
      exists k. exact Hinit. }
  split; [exact Hiff|]. split; [apply initialize_no_throw|].
  intros Hout. apply outcome_cases; [apply initialize_no_throw|].
  intros k Hk. rewrite (proj1 Hiff (ex_intro _ k Hk)) in Hout. discriminate.
Qed.

(** X3: after [initialize] of a constructed kernel there is one exclusion
    set per particle, and the sets hold particle indices only: if [b] is in
    [exclusions[a]] then both are in [0, numParticles). *)
Theorem initialize_exclusions_in_range (k0 : Kernel) (system : System)
    (force : NonbondedForce) :
  constructed k0 ->
  exceptionsInRange force = true ->
  exists k,
    init k0 system force = Ok k /\
    Z.of_nat (length (exclusions k)) = getNumParticles force /\
    forall a b, excluded (exclusions k) a b ->
                0 <= a < getNumParticles force /\ 0 <= b < getNumParticles force.
Proof.
  intros [_ Hfresh] Hrange.
  destruct (initialize_spec calcEwaldParameters calcPMEParameters tailCorrection
              k0 system force Hrange)
    as (k & st & Hinit & _ & Hst & Hex & _ & Hn & _).
  exists k. split; [exact Hinit|]. split.
  { destruct (initialize_wf _ _ _ k0 k system force Hinit) as (_ & _ & He). lia. }
  intros a b Hab. rewrite Hex in Hab. rewrite Hfresh in Hst.
  apply (scanned_paired force _ st Hst) in Hab as (e & He & Hp).
  unfold exceptionsInRange in Hrange. rewrite forallb_forall in Hrange.
  apply list_elem_of_In, Hrange, exceptionInRange_true in He.
  destruct Hp as [[<- <-] | [<- <-]]; lia.
Qed.

(** X4: with NoCutoff, [initialize] switches the switching function off
    whatever the configuration asks for, and does not assign the switching
    distance; with every other method it takes both from the
    configuration. *)
Theorem initialize_switching (k0 : Kernel) (system : System) (force : NonbondedForce) :
  exceptionsInRange force = true ->
  exists k,
    init k0 system force = Ok k /\
    (getNonbondedMethod force = NoCutoff ->
       useSwitchingFunction k = false /\ switchingDistance k = switchingDistance k0) /\
    (getNonbondedMethod force <> NoCutoff ->
       useSwitchingFunction k = getUseSwitchingFunction force /\
       switchingDistance k = getSwitchingDistance force).
Proof.
  intros Hrange.
  destruct (initialize_spec calcEwaldParameters calcPMEParameters tailCorrection
              k0 system force Hrange) as (k & _ & Hinit & _).
  exists k. split; [exact Hinit|].
  destruct (initialize_inv _ _ _ k0 k system force Hinit)
    as (st & pq & _ & _ & _ & _ & _ & _ & _ & Hu & Hd & _).
  rewrite Hu, Hd. split.
  - intros ->. auto.
  - intros Hne. destruct (getNonbondedMethod force); auto. congruence.
Qed.

(** X5: [initialize] derives the reciprocal-space parameters for the
    chosen method only: with Ewald it stores alpha and kmax of
    [calcEwaldParameters] and leaves the grid size, with PME alpha and the
    grid size of [calcPMEParameters] and leaves kmax, and with the three
    other methods it assigns none of the three. *)
Theorem initialize_reciprocal_parameters (k0 : Kernel) (system : System)
    (force : NonbondedForce) :
  exceptionsInRange force = true ->
  exists k,
    init k0 system force = Ok k /\
    (getNonbondedMethod force = Ewald ->
       ewaldAlpha k = (calcEwaldParameters system force).1 /\
       kmax k = (calcEwaldParameters system force).2 /\
       gridSize k = gridSize k0) /\
    (getNonbondedMethod force = PME ->
       ewaldAlpha k = (calcPMEParameters system force).1 /\
       gridSize k = (calcPMEParameters system force).2 /\
       kmax k = kmax k0) /\
    (usesPeriodic (getNonbondedMethod force) = false \/
     getNonbondedMethod force = CutoffPeriodic ->
       ewaldAlpha k = ewaldAlpha k0 /\ kmax k = kmax k0 /\ gridSize k = gridSize k0).
Proof.
  intros Hrange.
  destruct (initialize_spec calcEwaldParameters calcPMEParameters tailCorrection
              k0 system force Hrange) as (k & _ & Hinit & _).
  exists k. split; [exact Hinit|].
  destruct (initialize_inv _ _ _ k0 k system force Hinit)
    as (st & pq & _ & _ & _ & _ & _ & _ & _ & _ & _ & Ha & Hk & Hg & _).
  rewrite Ha, Hk, Hg. split; [|split].
  - intros ->. auto.
  - intros ->. auto.
  - intros [Hnp | ->]; [|auto].
    destruct (getNonbondedMethod force); try discriminate; auto.
Qed.

(** X6: [initialize] resizes the exclusion table and does not clear it: on
    a kernel that already holds exclusions, every old exclusion of a
    particle index below the new particle count is still there
    afterwards. *)
Theorem initialize_keeps_exclusions (k0 : Kernel) (system : System)
    (force : NonbondedForce) :
  exceptionsInRange force = true ->
  exists k,
    init k0 system force = Ok k /\
    forall a b, a < getNumParticles force ->
                excluded (exclusions k0) a b -> excluded (exclusions k) a b.
Proof.
  intros Hrange.
  destruct (initialize_spec calcEwaldParameters calcPMEParameters tailCorrection
              k0 system force Hrange)
    as (k & st & Hinit & _ & (_ & Hst & _) & Hex & _).
  exists k. split; [exact Hinit|]. intros a b Ha Hab.
  rewrite Hex. apply Hst. left. apply excluded_resize; [|exact Hab].
  unfold getNumParticles in *. lia.
Qed.

(** X7: [num14] lies between 0 and the number of exceptions, and reaches
    the number of exceptions exactly when every exception has a nonzero
    charge product or a nonzero epsilon. *)
Theorem initialize_num14_bounds (k0 : Kernel) (system : System) (force : NonbondedForce) :
  exceptionsInRange force = true ->
  exists k,
    init k0 system force = Ok k /\
    0 <= num14 k <= getNumExceptions force /\
    (num14 k = getNumExceptions force <-> allScaled force).
Proof.
  intros Hrange.
  destruct (initialize_spec calcEwaldParameters calcPMEParameters tailCorrection
              k0 system force Hrange)
    as (k & st & Hinit & _ & (_ & _ & _ & Hcount) & _ & H14 & _).
  exists k. split; [exact Hinit|].
  rewrite take_ge in Hcount by (unfold getNumExceptions; lia).
  destruct (filter_length_all is14 (exceptions force)) as [Hle Heq].
  rewrite H14, Hcount. unfold getNumExceptions, allScaled. split; [lia|].
  rewrite <- Heq. lia.
Qed.

(** X8: with no exception configured, [initialize] of a constructed
    kernel leaves every exclusion set empty and [num14] at 0. *)
Theorem initialize_without_exceptions (k0 : Kernel) (system : System)
    (force : NonbondedForce) :
  constructed k0 ->
  exceptions force = [] ->
  exists k,
    init k0 system force = Ok k /\
    num14 k = 0 /\
    exclusions k = replicate (Z.to_nat (getNumParticles force)) ∅.
Proof.
  intros [_ Hfresh] Hnone.
  assert (Hrange : exceptionsInRange force = true).
  { unfold exceptionsInRange. rewrite Hnone. reflexivity. }
  destruct (initialize_spec calcEwaldParameters calcPMEParameters tailCorrection
              k0 system force Hrange)
    as (k & st & Hinit & Hscan & _ & Hex & H14 & _).
  exists k. split; [exact Hinit|].
  unfold scanExceptions, getNumExceptions in Hscan. rewrite Hnone in Hscan.
  simpl in Hscan. injection Hscan as <-. simpl in *.
  split; [exact H14|]. rewrite Hex, Hfresh. apply resize_nil.
Qed.

End InitializeExtras.

(* ===================================================================== *)
(** ** More on execute *)
(* ===================================================================== *)

Lemma wrapStep_Ok posData boxSize i j pq pq' :
  wrapStep posData boxSize i j pq = Ok pq' ->
  0 <= i < Z.of_nat (length posData) /\
  0 <= 4 * i + j < Z.of_nat (length pq) /\
  exists x, pq' = <[Z.to_nat (4 * i + j) := x]> pq.
Proof.
  unfold wrapStep. destruct (load posData i) as [p| |] eqn:Hload; simpl; try discriminate.
  intros H. apply store_Ok in H as [Hj ->].
  apply load_Ok in Hload as [Hi Hp]. apply lookup_lt_Some in Hp.
  split; [lia|]. split; [exact Hj|]. eauto.
Qed.

Lemma periodicStep_Ok posData boxSize i pq pq' :
  periodicStep posData boxSize i pq = Ok pq' ->
  0 <= i < Z.of_nat (length posData) /\
  forall a, 0 <= a -> pq' !! Z.to_nat (4 * a + 3) = pq !! Z.to_nat (4 * a + 3).
Proof.
  unfold periodicStep. cbn [for_loop].
  destruct (wrapStep posData boxSize i 0 pq) as [q0| |] eqn:E0; simpl; try discriminate.
  destruct (wrapStep posData boxSize i (0 + 1) q0) as [q1| |] eqn:E1; simpl; try discriminate.
  destruct (wrapStep posData boxSize i (0 + 1 + 1) q1) as [q2| |] eqn:E2; simpl;
    try discriminate.
  intros [= <-].
  apply wrapStep_Ok in E0 as (Hi & H0 & x0 & ->).
  apply wrapStep_Ok in E1 as (_ & H1 & x1 & ->).
  apply wrapStep_Ok in E2 as (_ & H2 & x2 & ->).
  split; [exact Hi|]. intros a Ha.
  rewrite !list_lookup_insert_ne by lia. reflexivity.
Qed.

Lemma plainStep_Ok posData i pq pq' :
  plainStep posData i pq = Ok pq' ->
  0 <= i < Z.of_nat (length posData) /\
  forall a, 0 <= a -> pq' !! Z.to_nat (4 * a + 3) = pq !! Z.to_nat (4 * a + 3).
Proof.
  unfold plainStep.
  destruct (load posData i) as [p| |] eqn:Hload; simpl; try discriminate.
  destruct (store pq (4 * i) _) as [q0| |] eqn:E0; simpl; try discriminate.
  destruct (store q0 (4 * i + 1) _) as [q1| |] eqn:E1; simpl; try discriminate.
  intros E2.
  apply store_Ok in E0 as [H0 ->], E1 as [H1 ->], E2 as [H2 ->].
  apply load_Ok in Hload as [Hi Hp]. apply lookup_lt_Some in Hp.
  split; [lia|]. intros a Ha.
  rewrite !list_lookup_insert_ne by lia. reflexivity.
Qed.

Lemma wrapStep_no_throw posData boxSize i j pq :
  ~ throws (wrapStep posData boxSize i j pq).
Proof.
  unfold wrapStep. apply bind_no_throw; [apply load_no_throw|].
  intros p. apply store_no_throw.
Qed.

Lemma periodicStep_no_throw posData boxSize i pq :
  ~ throws (periodicStep posData boxSize i pq).
Proof.
  unfold periodicStep. apply for_loop_no_throw. intros j t. apply wrapStep_no_throw.
Qed.

Lemma plainStep_no_throw posData i pq : ~ throws (plainStep posData i pq).
Proof.
  unfold plainStep.
  apply bind_no_throw; [apply load_no_throw|]. intros p0.
  apply bind_no_throw; [apply store_no_throw|]. intros q0.
  apply bind_no_throw; [apply load_no_throw|]. intros p1.
  apply bind_no_throw; [apply store_no_throw|]. intros q1.
  apply bind_no_throw; [apply load_no_throw|]. intros p2.
  apply store_no_throw.
Qed.

(** A list of slots of four is determined by its entries slot by slot. *)
Lemma slots_ext (n : Z) (l1 l2 : list single) :
  Z.of_nat (length l1) = 4 * n ->
  Z.of_nat (length l2) = 4 * n ->
  (forall i j, 0 <= i < n -> 0 <= j < 4 ->
               l1 !! Z.to_nat (4 * i + j) = l2 !! Z.to_nat (4 * i + j)) ->
  l1 = l2.
Proof.
  intros H1 H2 Hall. apply list_eq. intros idx.
  destruct (decide (Z.of_nat idx < 4 * n)) as [Hlt|Hge].
  - pose proof (Z_div_mod_eq_full (Z.of_nat idx) 4) as Hd.
    pose proof (Z.mod_pos_bound (Z.of_nat idx) 4 ltac:(lia)) as Hm.
    specialize (Hall (Z.of_nat idx / 4) (Z.of_nat idx mod 4)).
    replace (Z.to_nat (4 * (Z.of_nat idx / 4) + Z.of_nat idx mod 4)) with idx in Hall by lia.
    apply Hall; lia.
  - rewrite !lookup_ge_None_2 by lia. reflexivity.
Qed.

(** Without an extent of the box along an axis, the wrap has no value:
    [x/0] is infinite or NaN, and [floor(x/0 + 0.5) * 0] is NaN. *)
Lemma wrapCoordinate_zero_box (x : double) (s : bool) :
  wrapCoordinate x (S754_zero s) = S754_nan.
Proof. destruct x as [sx|sx| |sx m e], s; try destruct sx; reflexivity. Qed.

Section ExecuteMore.

Context {CpuNeighborList : Type}.
Variable computeNeighborList :
  CpuNeighborList -> Z -> list single -> list (gset Z) ->
  single * single * single -> bool -> double -> CpuNeighborList.

Abbreviation Kernel := (CpuCalcNonbondedForceKernel CpuNeighborList).
Abbreviation exec := (execute computeNeighborList).

(** A conversion that returned has read a position for every particle
    and has kept the charges. *)
Lemma convertPositions_Ok (k : Kernel) posData boxSize pq :
  convertPositions k posData boxSize = Ok pq ->
  numParticles k <= Z.of_nat (length posData) /\
  forall a, 0 <= a -> pq !! Z.to_nat (4 * a + 3) = posq k !! Z.to_nat (4 * a + 3).
Proof.
  unfold convertPositions.
  destruct (NonbondedMethod_eqb (nonbondedMethod k) CutoffPeriodic); intros H.
  - apply (for_loop_partial _
             (fun m t => m <= Z.of_nat (length posData) /\
                forall a, 0 <= a -> t !! Z.to_nat (4 * a + 3) = posq k !! Z.to_nat (4 * a + 3)))
      in H.
    + destruct H as [Hn Hq]. split; [lia | exact Hq].
    + split; [lia | reflexivity].
    + intros j t t' Hj [_ Hq] Hb. apply periodicStep_Ok in Hb as [Hi Hc].
      split; [lia|]. intros a Ha. rewrite Hc by exact Ha. apply Hq. exact Ha.
  - apply (for_loop_partial _
             (fun m t => m <= Z.of_nat (length posData) /\
                forall a, 0 <= a -> t !! Z.to_nat (4 * a + 3) = posq k !! Z.to_nat (4 * a + 3)))
      in H.
    + destruct H as [Hn Hq]. split; [lia | exact Hq].
    + split; [lia | reflexivity].
    + intros j t t' Hj [_ Hq] Hb. apply plainStep_Ok in Hb as [Hi Hc].
      split; [lia|]. intros a Ha. rewrite Hc by exact Ha. apply Hq. exact Ha.
Qed.

Lemma execute_no_throw (k : Kernel) (context : ContextImpl) (f1 f2 f3 f4 : bool) :
  ~ throws (exec k context f1 f2 f3 f4).
Proof.
  unfold execute. apply bind_no_throw.
  - unfold convertPositions.
    destruct (NonbondedMethod_eqb (nonbondedMethod k) CutoffPeriodic);
      apply for_loop_no_throw; intros j t;
      [apply periodicStep_no_throw | apply plainStep_no_throw].
  - intros pq [msg H]. discriminate.
Qed.

(** Calls that return change the working copy only. *)
Lemma Evolves_frame (k k' : Kernel) :
  Evolves computeNeighborList k k' ->
  (exists pq nl, k' = setWorking k pq nl) /\
  forall a, 0 <= a -> posq k' !! Z.to_nat (4 * a + 3) = posq k !! Z.to_nat (4 * a + 3).
Proof.
  induction 1 as [k
                 | k k1 context f1 f2 f3 f4 energy k2 context' _ [(pq1 & nl1 & Hk1) Hq1] Hexec
                 | k k1 context force k2 context' _ IH Hupd].
  - split; [|reflexivity]. exists (posq k), (neighborList k). destruct k. reflexivity.
  - apply execute_inv in Hexec as (pq & Hc & [= -> -> ->]).
    apply convertPositions_Ok in Hc as [_ Hc]. split.
    + exists pq. eexists. rewrite Hk1. reflexivity.
    + intros a Ha. simpl. rewrite Hc by exact Ha. apply Hq1. exact Ha.
  - unfold copyParametersToContext in Hupd. injection Hupd as <- <-. exact IH.
Qed.

End ExecuteMore.

Section ExecuteExtras.

Context {System CpuNeighborList : Type}.
Variable computeNeighborList :
  CpuNeighborList -> Z -> list single -> list (gset Z) ->
  single * single * single -> bool -> double -> CpuNeighborList.
Variable calcEwaldParameters : System -> NonbondedForce -> double * (Z * Z * Z).
Variable calcPMEParameters : System -> NonbondedForce -> double * (Z * Z * Z).
Variable tailCorrection : System -> NonbondedForce -> double.

Abbreviation Kernel := (CpuCalcNonbondedForceKernel CpuNeighborList).
Abbreviation init := (initialize calcEwaldParameters calcPMEParameters tailCorrection).
Abbreviation exec := (execute computeNeighborList).
Abbreviation ready :=
  (Ready computeNeighborList calcEwaldParameters calcPMEParameters tailCorrection).

(** X9: with CutoffPeriodic, [execute] stores for every particle [i] and
    axis [j] the float of [x - floor(x/L + 0.5) * L], computed in double,
    where [x] is the coordinate and [L] the box edge of that axis. *)
Theorem execute_periodic_wraps (k : Kernel) (context : ContextImpl) (f1 f2 f3 f4 : bool) :
  ready k ->
  nonbondedMethod k = CutoffPeriodic ->
  hasPositions k context ->
  exists k',
    exec k context f1 f2 f3 f4 = Ok (dzero, k', context) /\
    forall i p j, 0 <= i < numParticles k ->
      positions context !! Z.to_nat i = Some p -> 0 <= j < 3 ->
      let x := vec_get p j in
      let L := vec_get (periodicBoxSize context) j in
      posq k' !! Z.to_nat (4 * i + j)
        = Some (to_float (dsub x (dmul (dfloor (dadd (ddiv x L) dhalf)) L))).
Proof.
  intros Hready Hm Hpos. apply Ready_wf in Hready.
  destruct (execute_converts_positions computeNeighborList k context f1 f2 f3 f4 Hready Hpos)
    as (pq & Hexec & _ & Hx & _).
  eexists. split; [exact Hexec|]. intros i p j Hi Hp Hj x L.
  cbn [posq setWorking].
  etransitivity; [exact (Hx i p j Hi Hp Hj)|].
  unfold coordinateOf. rewrite Hm. reflexivity.
Qed.

(** X10: with NoCutoff and CutoffNonPeriodic, [execute] stores the plain
    float of every coordinate, whatever the box is, and asks for a
    neighbor list that is not periodic. *)
Theorem execute_nonperiodic_casts (k : Kernel) (context : ContextImpl)
    (f1 f2 f3 f4 : bool) :
  ready k ->
  usesPeriodic (nonbondedMethod k) = false ->
  hasPositions k context ->
  exists k',
    exec k context f1 f2 f3 f4 = Ok (dzero, k', context) /\
    (forall i p j, 0 <= i < numParticles k ->
       positions context !! Z.to_nat i = Some p -> 0 <= j < 3 ->
       posq k' !! Z.to_nat (4 * i + j) = Some (to_float (vec_get p j))) /\
    neighborList k' =
      computeNeighborList (neighborList k) (numParticles k) (posq k') (exclusions k)
        (toFloatBox (periodicBoxSize context)) false (nonbondedCutoff k).
Proof.
  intros Hready Hm Hpos. apply Ready_wf in Hready.
  destruct (execute_converts_positions computeNeighborList k context f1 f2 f3 f4 Hready Hpos)
    as (pq & Hexec & _ & Hx & _).
  eexists. split; [exact Hexec|]. cbn [posq neighborList setWorking]. split.
  - intros i p j Hi Hp Hj. etransitivity; [exact (Hx i p j Hi Hp Hj)|].
    unfold coordinateOf.
    destruct (nonbondedMethod k); try discriminate; reflexivity.
  - unfold searched. rewrite Hm. reflexivity.
Qed.

(** X11: [execute] checks nothing: it returns exactly when the context
    holds a position for each of the kernel's particles, it never throws,
    and with fewer positions it reads [posData] beyond its end. *)
Theorem execute_returns_iff_positions (k : Kernel) (context : ContextImpl)
    (f1 f2 f3 f4 : bool) :
  ready k ->
  ((exists r, exec k context f1 f2 f3 f4 = Ok r) <-> hasPositions k context) /\
  ~ throws (exec k context f1 f2 f3 f4) /\
  (~ hasPositions k context -> exec k context f1 f2 f3 f4 = Undefined).
Proof.
  intros Hready. apply Ready_wf in Hready.
  assert (Hiff : (exists r, exec k context f1 f2 f3 f4 = Ok r) <-> hasPositions k context).
  { split.
    - intros [r Hr]. apply execute_inv in Hr as (pq & Hc & _).
      apply convertPositions_Ok in Hc as [Hn _]. exact Hn.
    - intros Hpos.
      destruct (execute_spec computeNeighborList k context f1 f2 f3 f4 Hready Hpos)
        as (pq & _ & Hexec).
      eexists. exact Hexec. }
  split; [exact Hiff|]. split; [apply execute_no_throw|].
  intros Hno. apply outcome_cases; [apply execute_no_throw|].
  intros r Hr. apply Hno, Hiff. exists r. exact Hr.
Qed.

(** X12: the working positions depend on the context and on the stored
    charges only: a second [execute] on the same context, with any flags,
    leaves [posq] as the first one left it. *)
Theorem execute_twice_same_posq (k : Kernel) (context : ContextImpl)
    (f1 f2 f3 f4 g1 g2 g3 g4 : bool) :
  ready k ->
  hasPositions k context ->
  exists k1 k2,
    exec k context f1 f2 f3 f4 = Ok (dzero, k1, context) /\
    exec k1 context g1 g2 g3 g4 = Ok (dzero, k2, context) /\
    posq k2 = posq k1.
Proof.
  intros Hready Hpos. apply Ready_wf in Hready.
  destruct (execute_converts_positions computeNeighborList k context f1 f2 f3 f4 Hready Hpos)
    as (pq1 & Hexec1 & Hl1 & Hx1 & Hq1).
  set (k1 := setWorking k pq1 (searched computeNeighborList k context pq1)) in *.
  assert (Hwf1 : kernel_wf k1) by (eapply execute_wf; [exact Hready | exact Hexec1]).
  assert (Hpos1 : hasPositions k1 context) by exact Hpos.
  destruct (execute_converts_positions computeNeighborList k1 context g1 g2 g3 g4 Hwf1 Hpos1)
    as (pq2 & Hexec2 & Hl2 & Hx2 & Hq2).
  exists k1. eexists. split; [exact Hexec1|]. split; [exact Hexec2|].
  cbn [posq numParticles nonbondedMethod setWorking k1] in *.
  destruct Hready as (Hn & Hlen & _).
  apply (slots_ext (numParticles k)); [lia | lia |].
  intros i j Hi Hj. destruct (decide (j = 3)) as [->|Hne].
  - apply Hq2. lia.
  - destruct (lookup_lt_is_Some_2 (positions context) (Z.to_nat i)) as [p Hp].
    { unfold hasPositions in Hpos. lia. }
    etransitivity; [apply (Hx2 i p j Hi Hp); lia|].
    symmetry. apply (Hx1 i p j Hi Hp). lia.
Qed.

(** X13: the parameter table is fixed at [initialize]: after any number
    of later [execute] and [copyParametersToContext] calls, with any
    contexts, flags and configurations, the particle count, [num14], the
    exclusions, the method, the cutoff, the switching settings, the
    reciprocal-space parameters and the dispersion coefficient are those
    of [initialize], and [posq[4*i+3]] is still the charge that the
    configuration of [initialize] gave to particle [i]. *)
Theorem parameters_fixed_at_initialize (k0 k k' : Kernel) (system : System)
    (force : NonbondedForce) :
  init k0 system force = Ok k ->
  Evolves computeNeighborList k k' ->
  numParticles k' = getNumParticles force /\
  num14 k' = num14 k /\
  exclusions k' = exclusions k /\
  nonbondedMethod k' = getNonbondedMethod force /\
  nonbondedCutoff k' = getCutoffDistance force /\
  useSwitchingFunction k' = useSwitchingFunction k /\
  switchingDistance k' = switchingDistance k /\
  ewaldAlpha k' = ewaldAlpha k /\ kmax k' = kmax k /\ gridSize k' = gridSize k /\
  rfDielectric k' = getReactionFieldDielectric force /\
  dispersionCoefficient k' = dispersionCoefficient k /\
  forall i p, 0 <= i -> particles force !! Z.to_nat i = Some p ->
              posq k' !! Z.to_nat (4 * i + 3) = Some (to_float (charge p)).
Proof.
  intros Hinit Hev.
  destruct (Evolves_frame computeNeighborList k k' Hev) as [(pq & nl & ->) Hq].
  destruct (initialize_charges _ _ _ k0 k system force Hinit) as [_ Hc].
  simpl in *.
  assert (Hk : numParticles k = getNumParticles force /\
               nonbondedMethod k = getNonbondedMethod force /\
               nonbondedCutoff k = getCutoffDistance force /\
               rfDielectric k = getReactionFieldDielectric force).
  { unfold initialize in Hinit.
    destruct (scanExceptions force _) as [st| |]; simpl in Hinit; try discriminate.
    destruct (for_loop (chargeStep force) _ 0 _) as [pq'| |]; simpl in Hinit;
      try discriminate.
    injection Hinit as <-. simpl. auto. }
  destruct Hk as (-> & -> & -> & ->).
  repeat (split; [reflexivity|]).
  intros i p Hi Hp. rewrite Hq by exact Hi. apply Hc; assumption.
Qed.

(** X14: with CutoffPeriodic and a box edge that is zero along axis [j],
    [execute] still returns 0.0, and component [j] of every working
    position is NaN. *)
Theorem execute_flat_box_nan (k : Kernel) (context : ContextImpl)
    (f1 f2 f3 f4 : bool) (j : Z) (s : bool) :
  ready k ->
  nonbondedMethod k = CutoffPeriodic ->
  hasPositions k context ->
  0 <= j < 3 ->
  vec_get (periodicBoxSize context) j = S754_zero s ->
  exists k',
    exec k context f1 f2 f3 f4 = Ok (dzero, k', context) /\
    forall i, 0 <= i < numParticles k ->
              posq k' !! Z.to_nat (4 * i + j) = Some S754_nan.
Proof.
  intros Hready Hm Hpos Hj Hbox. apply Ready_wf in Hready.
  destruct (execute_converts_positions computeNeighborList k context f1 f2 f3 f4 Hready Hpos)
    as (pq & Hexec & _ & Hx & _).
  eexists. split; [exact Hexec|]. intros i Hi. cbn [posq setWorking].
  destruct (lookup_lt_is_Some_2 (positions context) (Z.to_nat i)) as [p Hp].
  { unfold hasPositions in Hpos. lia. }
  etransitivity; [exact (Hx i p j Hi Hp Hj)|].
  unfold coordinateOf, wrappedCoordinate.
  rewrite Hm, Hbox. cbn [NonbondedMethod_eqb].
  rewrite wrapCoordinate_zero_box. reflexivity.
Qed.

End ExecuteExtras.

(* ===================================================================== *)
(** ** The further properties on concrete systems *)
(* ===================================================================== *)

Import Cases.

(** Closed comparisons of integers, by evaluation. *)
Ltac evaluated :=
  vm_compute; repeat split; try reflexivity;
  let H := fresh in intro H; discriminate H.

Lemma chain_ready : Scenario.ready (kernelOf chain).
Proof. apply kernelOf_ready. vm_compute. reflexivity. Defined.

Lemma fresh_constructed : constructed fresh.
Proof. split; reflexivity. Defined.

Lemma initialize_posq_layout_witness :
  constructed fresh /\
  exceptionsInRange chain = true /\
  exists k,
    init fresh chain = Ok k /\
    Z.of_nat (length (posq k)) = 4 * getNumParticles chain /\
    posq k !! 11%nat = Some (to_float (d_of_Z (-1))) /\
    posq k !! 8%nat = Some fzero.
Proof.
  split; [exact fresh_constructed|]. split; [reflexivity|].
  destruct (initialize_posq_layout ewaldPars pmePars tail fresh tt chain
              fresh_constructed eq_refl) as (k & Hinit & Hlen & Hall).
  exists k. split; [exact Hinit|]. split; [exact Hlen|].
  destruct (Hall 2 (particle (-1)) ltac:(evaluated) eq_refl) as [Hc Hz].
  split; [exact Hc|]. apply (Hz 0). evaluated.
Defined.

Lemma initialize_exclusions_in_range_witness :
  constructed fresh /\
  exceptionsInRange chain = true /\
  exists k,
    init fresh chain = Ok k /\
    Z.of_nat (length (exclusions k)) = getNumParticles chain /\
    forall a b, excluded (exclusions k) a b ->
                0 <= a < getNumParticles chain /\ 0 <= b < getNumParticles chain.
Proof.
  split; [exact fresh_constructed|]. split; [reflexivity|].
  exact (initialize_exclusions_in_range ewaldPars pmePars tail fresh tt chain
           fresh_constructed eq_refl).
Defined.

Lemma initialize_switching_witness :
  exceptionsInRange (switched NoCutoff) = true /\
  getUseSwitchingFunction (switched NoCutoff) = true /\
  exists k,
    init fresh (switched NoCutoff) = Ok k /\
    useSwitchingFunction k = false /\
    switchingDistance k = switchingDistance fresh.
Proof.
  split; [reflexivity|]. split; [reflexivity|].
  destruct (initialize_switching ewaldPars pmePars tail fresh tt (switched NoCutoff) eq_refl)
    as (k & Hinit & Hno & _).
  exists k. split; [exact Hinit|]. exact (Hno eq_refl).
Defined.

Lemma initialize_reciprocal_parameters_witness :
  exceptionsInRange (switched Ewald) = true /\
  exists k,
    init fresh (switched Ewald) = Ok k /\
    ewaldAlpha k = d_of_Z 3 /\ kmax k = (5, 5, 5) /\ gridSize k = gridSize fresh.
Proof.
  split; [reflexivity|].
  destruct (initialize_reciprocal_parameters ewaldPars pmePars tail fresh tt
              (switched Ewald) eq_refl) as (k & Hinit & Hewald & _).
  exists k. split; [exact Hinit|]. exact (Hewald eq_refl).
Defined.

(** The kernel of the chain, initialized again for the dipole: particle 1
    still excludes particle 2, which the dipole does not have. *)
Lemma initialize_keeps_exclusions_witness :
  exceptionsInRange dipole = true /\
  excluded (exclusions (kernelOf chain)) 1 2 /\
  exists k,
    init (kernelOf chain) dipole = Ok k /\
    numParticles k = 2 /\
    excluded (exclusions k) 1 2.
Proof.
  assert (Hold : excluded (exclusions (kernelOf chain)) 1 2).
  { split; [evaluated|]. exists ({[2]} ∪ ({[0]} ∪ ∅)).
    split; [vm_compute; reflexivity|].
    apply elem_of_union. left. apply elem_of_singleton. reflexivity. }
  split; [reflexivity|]. split; [exact Hold|].
  destruct (initialize_keeps_exclusions ewaldPars pmePars tail (kernelOf chain) tt dipole
              eq_refl) as (k & Hinit & Hkeep).
  exists k. split; [exact Hinit|]. split.
  - vm_compute in Hinit. injection Hinit as <-. reflexivity.
  - apply Hkeep; [reflexivity | exact Hold].
Defined.

Lemma initialize_num14_bounds_witness :
  exceptionsInRange chain = true /\
  exists k,
    init fresh chain = Ok k /\
    0 <= num14 k <= getNumExceptions chain /\
    (num14 k = getNumExceptions chain <-> allScaled chain).
Proof.
  split; [reflexivity|].
  exact (initialize_num14_bounds ewaldPars pmePars tail fresh tt chain eq_refl).
Defined.

Lemma initialize_without_exceptions_witness :
  constructed fresh /\
  exceptions free = [] /\
  exists k,
    init fresh free = Ok k /\
    num14 k = 0 /\
    exclusions k = replicate (Z.to_nat (getNumParticles free)) ∅.
Proof.
  split; [exact fresh_constructed|]. split; [reflexivity|].
  exact (initialize_without_exceptions ewaldPars pmePars tail fresh tt free
           fresh_constructed eq_refl).
Defined.

Lemma chain_hasPositions : hasPositions (kernelOf chain) chainContext.
Proof. evaluated. Defined.

Lemma execute_periodic_wraps_witness :
  Scenario.ready (kernelOf chain) /\
  nonbondedMethod (kernelOf chain) = CutoffPeriodic /\
  hasPositions (kernelOf chain) chainContext /\
  exists k',
    run (kernelOf chain) chainContext true true true true = Ok (dzero, k', chainContext) /\
    posq k' !! 8%nat = Some (to_float (d_of_Z 1)).
Proof.
  split; [exact chain_ready|]. split; [reflexivity|]. split; [exact chain_hasPositions|].
  destruct (execute_periodic_wraps logSearch ewaldPars pmePars tail (kernelOf chain)
              chainContext true true true true chain_ready eq_refl chain_hasPositions)
    as (k' & Hexec & Hall).
  exists k'. split; [exact Hexec|].
  exact (Hall 2 (vec 5 0 0) 0 ltac:(evaluated) eq_refl
           ltac:(evaluated)).
Defined.

Lemma free_ready : Scenario.ready (kernelOf free).
Proof. apply kernelOf_ready. vm_compute. reflexivity. Defined.

Lemma free_hasPositions : hasPositions (kernelOf free) chainContext.
Proof. evaluated. Defined.

Lemma execute_nonperiodic_casts_witness :
  Scenario.ready (kernelOf free) /\
  usesPeriodic (nonbondedMethod (kernelOf free)) = false /\
  hasPositions (kernelOf free) chainContext /\
  exists k',
    run (kernelOf free) chainContext true true true true = Ok (dzero, k', chainContext) /\
    posq k' !! 8%nat = Some (to_float (d_of_Z 5)) /\
    map callPeriodic (neighborList k') = [false].
Proof.
  split; [exact free_ready|]. split; [reflexivity|]. split; [exact free_hasPositions|].
  destruct (execute_nonperiodic_casts logSearch ewaldPars pmePars tail (kernelOf free)
              chainContext true true true true free_ready eq_refl free_hasPositions)
    as (k' & Hexec & Hall & Hnl).
  exists k'. split; [exact Hexec|]. split.
  - exact (Hall 2 (vec 5 0 0) 0 ltac:(evaluated) eq_refl
             ltac:(evaluated)).
  - rewrite Hnl. reflexivity.
Defined.

Lemma execute_returns_iff_positions_witness :
  Scenario.ready (kernelOf chain) /\
  ~ hasPositions (kernelOf chain) shortContext /\
  run (kernelOf chain) shortContext true true true true = Undefined.
Proof.
  assert (Hshort : ~ hasPositions (kernelOf chain) shortContext).
  { intros H. vm_compute in H. apply H. reflexivity. }
  split; [exact chain_ready|]. split; [exact Hshort|].
  exact (proj2 (proj2 (execute_returns_iff_positions logSearch ewaldPars pmePars tail
                         (kernelOf chain) shortContext true true true true chain_ready))
               Hshort).
Defined.

Lemma execute_twice_same_posq_witness :
  Scenario.ready (kernelOf chain) /\
  hasPositions (kernelOf chain) chainContext /\
  exists k1 k2,
    run (kernelOf chain) chainContext true true true true = Ok (dzero, k1, chainContext) /\
    run k1 chainContext false false true false = Ok (dzero, k2, chainContext) /\
    posq k2 = posq k1.
Proof.
  split; [exact chain_ready|]. split; [exact chain_hasPositions|].
  exact (execute_twice_same_posq logSearch ewaldPars pmePars tail (kernelOf chain)
           chainContext true true true true false false true false
           chain_ready chain_hasPositions).
Defined.

Lemma parameters_fixed_at_initialize_witness :
  init fresh chain = Ok (kernelOf chain) /\
  Evolves logSearch (kernelOf chain) (afterRun (kernelOf chain) chainContext) /\
  numParticles (afterRun (kernelOf chain) chainContext) = 3 /\
  posq (afterRun (kernelOf chain) chainContext) !! 11%nat = Some (to_float (d_of_Z (-1))).
Proof.
  assert (Hinit : init fresh chain = Ok (kernelOf chain)) by (vm_compute; reflexivity).
  assert (Hev : Evolves logSearch (kernelOf chain) (afterRun (kernelOf chain) chainContext)).
  { apply Evolves_execute with (k1 := kernelOf chain) (context := chainContext)
      (f1 := true) (f2 := true) (f3 := true) (f4 := true)
      (energy := dzero) (context' := chainContext).
    - apply Evolves_refl.
    - vm_compute. reflexivity. }
  split; [exact Hinit|]. split; [exact Hev|].
  destruct (parameters_fixed_at_initialize logSearch ewaldPars pmePars tail
              fresh (kernelOf chain) (afterRun (kernelOf chain) chainContext) tt chain
              Hinit Hev) as (Hn & _ & _ & _ & _ & _ & _ & _ & _ & _ & _ & _ & Hc).
  split; [exact Hn|].
  exact (Hc 2 (particle (-1)) ltac:(evaluated) eq_refl).
Defined.

Lemma flat_hasPositions : hasPositions (kernelOf chain) flatContext.
Proof. evaluated. Defined.

Lemma execute_flat_box_nan_witness :
  Scenario.ready (kernelOf chain) /\
  nonbondedMethod (kernelOf chain) = CutoffPeriodic /\
  hasPositions (kernelOf chain) flatContext /\
  vec_get (periodicBoxSize flatContext) 0 = S754_zero false /\
  exists k',
    run (kernelOf chain) flatContext true true true true = Ok (dzero, k', flatContext) /\
    posq k' !! 4%nat = Some S754_nan.
Proof.
  split; [exact chain_ready|]. split; [reflexivity|]. split; [exact flat_hasPositions|].
  split; [reflexivity|].
  destruct (execute_flat_box_nan logSearch ewaldPars pmePars tail (kernelOf chain)
              flatContext true true true true 0 false chain_ready eq_refl
              flat_hasPositions ltac:(evaluated) eq_refl)
    as (k' & Hexec & Hall).
  exists k'. split; [exact Hexec|].
  exact (Hall 1 ltac:(evaluated)).
Defined.
